(** * GrandQC output analysis: the slide watcher and the mask analyzer

    A shallow embedding of [output-analysis/watchdog-script.py] (the
    [SVSHandler] that reacts to file-creation events) and of
    [output-analysis/artifact-analyzer.py] ([GrandQCAnalyzer.analyze_mask]),
    with the properties of both that the design document states.

    The handler's side effects (log lines, size polls, sleeps, subprocess
    runs) are recorded in an explicit trace; its only mutable attribute,
    [processed_files], is threaded through as state.  What the handler
    reads from the outside world (the successive results of
    [os.path.getsize], the outcome of the two subprocesses) is injected as
    a [World]. *)

From Stdlib Require Import ZArith NArith List Ascii String Lia Bool.
From Stdlib Require Import PrimFloat Uint63.
From stdpp Require Import gmap strings list.

Open Scope Z_scope.

(** ** Python string helpers used by the handler *)

Module PyStr.

(** [str.lower] on one character.  Paths are modelled as byte strings;
    the letters [A]..[Z] move to [a]..[z], every other byte stays. *)
Definition lower_ascii (c : ascii) : ascii :=
  let n := N_of_ascii c in
  if ((65 <=? n) && (n <=? 90))%N then ascii_of_N (n + 32) else c.

Fixpoint lower (s : string) : string :=
  match s with
  | EmptyString => EmptyString
  | String c s' => String (lower_ascii c) (lower s')
  end.

(** [s.endswith(suffix)]: some tail of [s] is [suffix]. *)
Fixpoint endswith (s suffix : string) : bool :=
  if String.eqb s suffix then true
  else match s with
       | EmptyString => false
       | String _ s' => endswith s' suffix
       end.

(** [posixpath.basename]: what follows the last slash.  [after] is the
    candidate collected since the last slash seen. *)
Fixpoint basename_from (after p : string) : string :=
  match p with
  | EmptyString => after
  | String c p' =>
      if Ascii.eqb c "/" then basename_from p' p' else basename_from after p'
  end.

Definition basename (p : string) : string := basename_from p p.

(** [s.startswith(prefix)] *)
Fixpoint startswith (s prefix : string) {struct prefix} : bool :=
  match prefix with
  | EmptyString => true
  | String a prefix' =>
      match s with
      | EmptyString => false
      | String b s' => Ascii.eqb a b && startswith s' prefix'
      end
  end.

(** [sub in s] *)
Fixpoint contains (s sub : string) : bool :=
  startswith s sub
  || match s with
     | EmptyString => false
     | String _ s' => contains s' sub
     end.

(** [s.replace(old, new)] for a non-empty [old]: scanning from the left,
    every occurrence of [old] met is replaced by [new] and the scan goes on
    behind it.  [skip] counts the characters of the occurrence just
    replaced that are still to be passed over. *)
Fixpoint replace_from (skip : nat) (s old new : string) : string :=
  match s with
  | EmptyString => EmptyString
  | String c s' =>
      match skip with
      | S skip' => replace_from skip' s' old new
      | O =>
          if startswith s old
          then new +:+ replace_from (String.length old - 1) s' old new
          else String c (replace_from 0 s' old new)
      end
  end.

Definition replace (s old new : string) : string := replace_from 0 s old new.

End PyStr.

(** ** Effects and injected inputs *)

(** The result of one [os.path.getsize(file_path)] call. *)
Inductive getsize_result :=
| Returns (n : N)
| RaisesOSError.

(** How a [subprocess.run(cmd, ...)] ends before [check=True] is applied:
    the child exits with a return code, or the call itself raises (for
    instance [FileNotFoundError] when [python] is not on the path). *)
Inductive run_result :=
| Exit (returncode : Z)
| RunRaises (what : string).

(** Exceptions seen by the [try] block of [on_created]. *)
Inductive exception :=
| CalledProcessError (returncode : Z) (cmd : list string)
| OtherException (what : string).

Inductive level := INFO | ERROR.

(** A log line: its text, and for the two lines that end in [str(e)] the
    exception itself (its rendering belongs to the subprocess library). *)
Inductive message :=
| Text (s : string)
| TextExc (s : string) (e : exception).

Inductive effect :=
| Log (lvl : level) (m : message)
| GetSize (path : string) (r : getsize_result)
| Sleep (seconds : N)
| Run (cmd : list string) (r : run_result).

Record World := {
  sizes : list getsize_result;   (* successive os.path.getsize results *)
  stage1 : run_result;           (* how wsi_tis_detect.py would end *)
  stage2 : run_result            (* how main.py would end *)
}.

Record FileSystemEvent := {
  is_directory : bool;
  src_path : string
}.

(** ** SVSHandler *)

Record SVSHandler := {
  input_dir : string;
  output_dir : string;
  processed_files : gset string
}.

(** [SVSHandler.__init__] (the logging set-up has no state of its own). *)
Definition SVSHandler_init (input_dir output_dir : string) : SVSHandler :=
  {| input_dir := input_dir; output_dir := output_dir; processed_files := ∅ |}.

(** How the polling loop of [on_created] is left. *)
Inductive wait_result :=
| Stable          (* [break]: the size read equals the previous one *)
| Unavailable     (* [os.path.getsize] raised [OSError] *)
| Polling.        (* the injected readings are used up, the loop goes on *)

(** The [while True] loop, by recursion on the injected readings.
    [file_size] is the loop variable of the same name (first [-1]). *)
Fixpoint wait_stable (file_path : string) (file_size : Z)
    (readings : list getsize_result) : list effect * wait_result :=
  match readings with
  | [] => ([], Polling)
  | RaisesOSError :: _ => ([GetSize file_path RaisesOSError], Unavailable)
  | Returns current_size :: rest =>
      if Z.of_N current_size =? file_size
      then ([GetSize file_path (Returns current_size)], Stable)
      else
        let '(tr, r) := wait_stable file_path (Z.of_N current_size) rest in
        (GetSize file_path (Returns current_size) :: Sleep 1 :: tr, r)
  end.

(** [subprocess.run(cmd, env=subprocess_env, check=True)]. *)
Definition subprocess_run_check (cmd : list string) (r : run_result)
  : list effect * (exception + unit) :=
  ([Run cmd r],
   match r with
   | Exit 0 => inr tt
   | Exit rc => inl (CalledProcessError rc cmd)
   | RunRaises what => inl (OtherException what)
   end).

Definition tissue_cmd (self : SVSHandler) : list string :=
  ["python"; "wsi_tis_detect.py";
   "--slide_folder"; input_dir self; "--output_dir"; output_dir self]%string.

Definition artifact_cmd (self : SVSHandler) : list string :=
  ["python"; "main.py";
   "--slide_folder"; input_dir self; "--output_dir"; output_dir self]%string.

(** The body of the [try] block: either an exception, or the handler with
    the path added to [processed_files]. *)
Definition run_pipeline (self : SVSHandler) (file_path file_name : string)
    (w : World) : list effect * (exception + SVSHandler) :=
  let log1 := Log INFO (Text ("Running tissue detection on " +:+ file_name)) in
  let '(t1, r1) := subprocess_run_check (tissue_cmd self) (stage1 w) in
  match r1 with
  | inl e => (log1 :: t1, inl e)
  | inr _ =>
      let log2 := Log INFO (Text ("Running artifact detection on " +:+ file_name)) in
      let '(t2, r2) := subprocess_run_check (artifact_cmd self) (stage2 w) in
      match r2 with
      | inl e => (log1 :: t1 ++ log2 :: t2, inl e)
      | inr _ =>
          (log1 :: t1 ++ log2 :: t2
             ++ [Log INFO (Text ("Successfully processed " +:+ file_name))],
           inr {| input_dir := input_dir self;
                  output_dir := output_dir self;
                  processed_files := processed_files self ∪ {[file_path]} |})
      end
  end.

Inductive status :=
| Returned     (* on_created returned to the observer *)
| Blocked.     (* still inside the polling loop *)

Record Outcome := {
  handler : SVSHandler;
  trace : list effect;
  ended : status
}.

Definition on_created (self : SVSHandler) (event : FileSystemEvent)
    (w : World) : Outcome :=
  if is_directory event then
    {| handler := self; trace := []; ended := Returned |}
  else if PyStr.endswith (PyStr.lower (src_path event)) ".svs" then
    let file_path := src_path event in
    let file_name := PyStr.basename file_path in
    if decide (file_path ∈ processed_files self) then
      {| handler := self;
         trace := [Log INFO (Text ("File " +:+ file_name
                                     +:+ " was already processed. Skipping..."))];
         ended := Returned |}
    else
      let detected := Log INFO (Text ("New .svs file detected: " +:+ file_name)) in
      let '(polls, r) := wait_stable file_path (-1) (sizes w) in
      match r with
      | Polling =>
          {| handler := self; trace := detected :: polls; ended := Blocked |}
      | Unavailable =>
          {| handler := self;
             trace := detected :: polls
               ++ [Log ERROR (Text ("Error accessing file " +:+ file_name
                                      +:+ ". File may be in use."))];
             ended := Returned |}
      | Stable =>
          let '(tr, res) := run_pipeline self file_path file_name w in
          match res with
          | inr self' =>
              {| handler := self'; trace := detected :: polls ++ tr;
                 ended := Returned |}
          | inl (CalledProcessError rc cmd) =>
              {| handler := self;
                 trace := detected :: polls ++ tr
                   ++ [Log ERROR (TextExc ("Error processing " +:+ file_name +:+ ": ")
                                          (CalledProcessError rc cmd))];
                 ended := Returned |}
          | inl e =>
              {| handler := self;
                 trace := detected :: polls ++ tr
                   ++ [Log ERROR (TextExc ("Unexpected error processing "
                                             +:+ file_name +:+ ": ") e)];
                 ended := Returned |}
          end
      end
  else
    {| handler := self; trace := []; ended := Returned |}.

(** The observer delivers events one at a time to the handler; an event
    whose polling loop does not end keeps the later ones waiting.  The
    result lists, per delivered event, the outcome of its handling. *)
Fixpoint dispatch (self : SVSHandler) (events : list (FileSystemEvent * World))
  : SVSHandler * list (FileSystemEvent * Outcome) :=
  match events with
  | [] => (self, [])
  | (ev, w) :: rest =>
      let o := on_created self ev w in
      match ended o with
      | Blocked => (handler o, [(ev, o)])
      | Returned =>
          let '(self', os) := dispatch (handler o) rest in
          (self', (ev, o) :: os)
      end
  end.

(** ** Reading a trace *)

(** The sizes that the polling loop read, in order. *)
Fixpoint sizes_read (tr : list effect) : list N :=
  match tr with
  | [] => []
  | GetSize _ (Returns n) :: tr' => n :: sizes_read tr'
  | _ :: tr' => sizes_read tr'
  end.

(** The subprocess runs of a trace, in order. *)
Fixpoint runs (tr : list effect) : list (list string * run_result) :=
  match tr with
  | [] => []
  | Run cmd r :: tr' => (cmd, r) :: runs tr'
  | _ :: tr' => runs tr'
  end.

Definition is_poll (e : effect) : bool :=
  match e with
  | GetSize _ _ | Sleep _ => true
  | _ => false
  end.

(** How often a given command line was run. *)
Definition invocations (cmd : list string) (tr : list effect) : nat :=
  length (filter (fun cr => cr.1 = cmd) (runs tr)).

(** No reading of [l] equals the one before it, [prev] being the one
    before the first. *)
Fixpoint distinct_from (prev : N) (l : list N) : Prop :=
  match l with
  | [] => True
  | a :: l' => prev <> a /\ distinct_from a l'
  end.

(** No two neighbours of the list are equal. *)
Definition adjacent_distinct (l : list N) : Prop :=
  match l with
  | [] => True
  | a :: l' => distinct_from a l'
  end.

(** The loop variable as the loop sees it after reading [l]. *)
Definition last_size (file_size : Z) (l : list N) : Z :=
  match last l with
  | Some a => Z.of_N a
  | None => file_size
  end.

(** [l] is a run of readings that keeps the loop going from [file_size]. *)
Fixpoint keeps_polling (file_size : Z) (l : list N) : Prop :=
  match l with
  | [] => True
  | a :: l' => Z.of_N a <> file_size /\ keeps_polling (Z.of_N a) l'
  end.

(** ** The log lines of [on_created] *)

Definition skip_line (file_path : string) : effect :=
  Log INFO (Text ("File " +:+ PyStr.basename file_path
                    +:+ " was already processed. Skipping...")).

Definition detected_line (file_path : string) : effect :=
  Log INFO (Text ("New .svs file detected: " +:+ PyStr.basename file_path)).

Definition access_error_line (file_path : string) : effect :=
  Log ERROR (Text ("Error accessing file " +:+ PyStr.basename file_path
                     +:+ ". File may be in use.")).

Definition tissue_line (file_path : string) : effect :=
  Log INFO (Text ("Running tissue detection on " +:+ PyStr.basename file_path)).

Definition artifact_line (file_path : string) : effect :=
  Log INFO (Text ("Running artifact detection on " +:+ PyStr.basename file_path)).

Definition success_line (file_path : string) : effect :=
  Log INFO (Text ("Successfully processed " +:+ PyStr.basename file_path)).

(** The line written by the [except] clause that catches [e]. *)
Definition error_line (file_path : string) (e : exception) : effect :=
  match e with
  | CalledProcessError _ _ =>
      Log ERROR (TextExc ("Error processing " +:+ PyStr.basename file_path +:+ ": ") e)
  | OtherException _ =>
      Log ERROR (TextExc ("Unexpected error processing "
                            +:+ PyStr.basename file_path +:+ ": ") e)
  end.

(** The event passes the two tests at the top of [on_created]. *)
Definition qualifies (ev : FileSystemEvent) : Prop :=
  is_directory ev = false
  /\ PyStr.endswith (PyStr.lower (src_path ev)) ".svs" = true.

(** The handler after [self.processed_files.add(file_path)]. *)
Definition mark_processed (self : SVSHandler) (file_path : string) : SVSHandler :=
  {| input_dir := input_dir self;
     output_dir := output_dir self;
     processed_files := processed_files self ∪ {[file_path]} |}.

(** ** The ways through the [try] block *)

Inductive piped (self : SVSHandler) (p : string) (w : World)
  : list effect * (exception + SVSHandler) -> Prop :=
| piped_stage1_exit rc :
    stage1 w = Exit rc -> rc <> 0 ->
    piped self p w
      ([tissue_line p; Run (tissue_cmd self) (Exit rc)],
       inl (CalledProcessError rc (tissue_cmd self)))
| piped_stage1_raise what :
    stage1 w = RunRaises what ->
    piped self p w
      ([tissue_line p; Run (tissue_cmd self) (RunRaises what)],
       inl (OtherException what))
| piped_stage2_exit rc :
    stage1 w = Exit 0 -> stage2 w = Exit rc -> rc <> 0 ->
    piped self p w
      ([tissue_line p; Run (tissue_cmd self) (Exit 0);
        artifact_line p; Run (artifact_cmd self) (Exit rc)],
       inl (CalledProcessError rc (artifact_cmd self)))
| piped_stage2_raise what :
    stage1 w = Exit 0 -> stage2 w = RunRaises what ->
    piped self p w
      ([tissue_line p; Run (tissue_cmd self) (Exit 0);
        artifact_line p; Run (artifact_cmd self) (RunRaises what)],
       inl (OtherException what))
| piped_done :
    stage1 w = Exit 0 -> stage2 w = Exit 0 ->
    piped self p w
      ([tissue_line p; Run (tissue_cmd self) (Exit 0);
        artifact_line p; Run (artifact_cmd self) (Exit 0);
        success_line p],
       inr (mark_processed self p)).

(** ** The ways through [on_created] *)

Inductive handled (self : SVSHandler) (ev : FileSystemEvent) (w : World)
  : Outcome -> Prop :=
| handled_filtered :
    is_directory ev = true
    \/ PyStr.endswith (PyStr.lower (src_path ev)) ".svs" = false ->
    handled self ev w {| handler := self; trace := []; ended := Returned |}
| handled_duplicate :
    qualifies ev -> src_path ev ∈ processed_files self ->
    handled self ev w
      {| handler := self; trace := [skip_line (src_path ev)]; ended := Returned |}
| handled_polling polls :
    qualifies ev -> src_path ev ∉ processed_files self ->
    wait_stable (src_path ev) (-1) (sizes w) = (polls, Polling) ->
    handled self ev w
      {| handler := self; trace := detected_line (src_path ev) :: polls;
         ended := Blocked |}
| handled_unavailable polls :
    qualifies ev -> src_path ev ∉ processed_files self ->
    wait_stable (src_path ev) (-1) (sizes w) = (polls, Unavailable) ->
    handled self ev w
      {| handler := self;
         trace := detected_line (src_path ev) :: polls
                    ++ [access_error_line (src_path ev)];
         ended := Returned |}
| handled_failed polls body e :
    qualifies ev -> src_path ev ∉ processed_files self ->
    wait_stable (src_path ev) (-1) (sizes w) = (polls, Stable) ->
    piped self (src_path ev) w (body, inl e) ->
    handled self ev w
      {| handler := self;
         trace := detected_line (src_path ev) :: polls
                    ++ body ++ [error_line (src_path ev) e];
         ended := Returned |}
| handled_completed polls body self' :
    qualifies ev -> src_path ev ∉ processed_files self ->
    wait_stable (src_path ev) (-1) (sizes w) = (polls, Stable) ->
    piped self (src_path ev) w (body, inr self') ->
    handled self ev w
      {| handler := self'; trace := detected_line (src_path ev) :: polls ++ body;
         ended := Returned |}.

(** Every dedupe verdict in a trace comes after a size reading. *)
Definition wait_before_dedupe (p : string) (tr : list effect) : Prop :=
  forall i,
    tr !! i = Some (skip_line p) ->
    exists j r, (j < i)%nat /\ tr !! j = Some (GetSize p r).

(** ** Further readers of a trace *)

(** The effects of a run of readings that keeps the polling loop going:
    each size is read, then the loop sleeps one second. *)
Fixpoint poll_effects (file_path : string) (l : list N) : list effect :=
  match l with
  | [] => []
  | n :: l' =>
      GetSize file_path (Returns n) :: Sleep 1 :: poll_effects file_path l'
  end.

(** The seconds spent in [time.sleep]. *)
Fixpoint slept (tr : list effect) : N :=
  match tr with
  | [] => 0
  | Sleep n :: tr' => (n + slept tr')%N
  | _ :: tr' => slept tr'
  end.

(** The number of [os.path.getsize] calls. *)
Fixpoint size_calls (tr : list effect) : N :=
  match tr with
  | [] => 0
  | GetSize _ _ :: tr' => (1 + size_calls tr')%N
  | _ :: tr' => size_calls tr'
  end.

(** The two subprocess runs of an event that goes through. *)
Definition both_ok (self : SVSHandler) : list (list string * run_result) :=
  [(tissue_cmd self, Exit 0); (artifact_cmd self, Exit 0)].

(** The handling of the event ran both stages with exit status zero. *)
Definition succeeded (o : Outcome) : Prop :=
  (runs (trace o)).*2 = [Exit 0; Exit 0].

(** ** GrandQCAnalyzer *)

Module Analyzer.

(** A [Dict[str, float]], in insertion order. *)
Definition dict := list (string * float).

(** [d[k] = v]: overwrite in place, or append a new key. *)
Fixpoint dict_set (d : dict) (k : string) (v : float) : dict :=
  match d with
  | [] => [(k, v)]
  | (k', v') :: d' =>
      if String.eqb k' k then (k', v) :: d' else (k', v') :: dict_set d' k v
  end.

Fixpoint dict_get (d : dict) (k : string) : option float :=
  match d with
  | [] => None
  | (k', v') :: d' => if String.eqb k' k then Some v' else dict_get d' k
  end.

(** [self.artifact_classes], as [__init__] fills it. *)
Definition artifact_classes : list (Z * string) :=
  [(1, "Normal Tissue"); (2, "Tissue Fold"); (3, "Dark Spot/Foreign");
   (4, "Pen Marking"); (5, "Air Bubble/Edge"); (6, "Out of Focus");
   (7, "Background")]%string.

(** [self.artifact_classes[i]]; [None] stands for [KeyError]. *)
Fixpoint class_name (classes : list (Z * string)) (i : Z) : option string :=
  match classes with
  | [] => None
  | (j, name) :: rest => if j =? i then Some name else class_name rest i
  end.

(** A mask image as rows of pixel values. *)
Definition mask := list (list Z).

(** [np.sum(mask <cmp> v)]: the number of pixels that satisfy the test. *)
Definition np_count (test : Z -> bool) (m : mask) : Z :=
  Z.of_nat (length (filter (fun v => test v = true) (concat m))).

(** An [int64] count taken into [float64] by true division. *)
Definition to_float64 (n : Z) : float := PrimFloat.of_uint63 (Uint63.of_Z n).

Definition total_tissue_pixels (m : mask) : Z :=
  np_count (fun v => negb (v =? 7)) m.

Definition pixels_of (class_idx : Z) (m : mask) : Z :=
  np_count (fun v => v =? class_idx) m.

Section WithRound.

(** The builtin [round(x, ndigits)] on a [float64] scalar; its
    algorithm is the interpreter's and numpy's, not this repository's. *)
Variable py_round : float -> Z -> float.

(** [{self.artifact_classes[i]: 0.0 for i in range(1, 7)}] *)
Fixpoint zero_percentages (keys : list Z) (acc : dict) : option dict :=
  match keys with
  | [] => Some acc
  | i :: keys' =>
      match class_name artifact_classes i with
      | None => None
      | Some name => zero_percentages keys' (dict_set acc name 0%float)
      end
  end.

(** The [for class_idx, class_name in self.artifact_classes.items()]
    loop.  Next to the dictionary it collects every division it
    evaluates, as (numerator, denominator). *)
Fixpoint percentages_loop (items : list (Z * string)) (m : mask)
    (total : Z) (percentages : dict) (divs : list (Z * Z))
  : dict * list (Z * Z) :=
  match items with
  | [] => (percentages, divs)
  | (class_idx, name) :: items' =>
      if negb (class_idx =? 7) then
        let pixels := pixels_of class_idx m in
        let percentage :=
          PrimFloat.mul
            (PrimFloat.div (to_float64 pixels) (to_float64 total))
            100%float in
        percentages_loop items' m total
          (dict_set percentages name (py_round percentage 2))
          (divs ++ [(pixels, total)])
      else percentages_loop items' m total percentages divs
  end.

(** [analyze_mask] on the pixel array read from [mask_path]: the
    returned dictionary ([None] for a [KeyError]) and the divisions
    evaluated on the way. *)
Definition analyze_mask_run (m : mask) : option dict * list (Z * Z) :=
  let total := total_tissue_pixels m in
  if total =? 0 then (zero_percentages (seqZ 1 6) [], [])
  else
    let '(percentages, divs) :=
      percentages_loop artifact_classes m total [] [] in
    (Some percentages, divs).

Definition analyze_mask (m : mask) : option dict := (analyze_mask_run m).1.

Definition divisions (m : mask) : list (Z * Z) := (analyze_mask_run m).2.

End WithRound.

(** numpy's rounding of a [float64] to [decimals] places, for
    [decimals >= 0]: [rint(x * 10**decimals) / 10**decimals], with [rint]
    to the nearest integer, ties to even (magnitudes from [2**52] on are
    integers already). *)
Definition two52 : float := 4503599627370496%float.

Definition rint (x : float) : float :=
  if PrimFloat.ltb (PrimFloat.abs x) two52 then
    if PrimFloat.ltb x 0%float
    then PrimFloat.opp (PrimFloat.sub (PrimFloat.add (PrimFloat.opp x) two52) two52)
    else PrimFloat.sub (PrimFloat.add x two52) two52
  else x.

Definition np_round (x : float) (decimals : Z) : float :=
  let f := to_float64 (10 ^ decimals) in
  PrimFloat.div (rint (PrimFloat.mul x f)) f.

(** [round(pixels / total * 100, 2)], as [analyze_mask] computes it. *)
Definition percentage_of (py_round : float -> Z -> float) (pixels total : Z)
  : float :=
  py_round
    (PrimFloat.mul (PrimFloat.div (to_float64 pixels) (to_float64 total))
                   100%float)
    2.

(** Every pixel of the mask is background. *)
Definition all_background (m : mask) : Prop :=
  Forall (Forall (fun v => v = 7)) m.

(** A value of a result row: the slide name or a percentage. *)
Inductive cell :=
| Str (s : string)
| Num (x : float).

(** One [result_row] of [analyze_directory], in insertion order. *)
Definition row := list (string * cell).

(** [r[k] = v] on a row. *)
Fixpoint row_set (r : row) (k : string) (v : cell) : row :=
  match r with
  | [] => [(k, v)]
  | (k', v') :: r' =>
      if String.eqb k' k then (k', v) :: r' else (k', v') :: row_set r' k v
  end.

Fixpoint row_get (r : row) (k : string) : option cell :=
  match r with
  | [] => None
  | (k', v') :: r' => if String.eqb k' k then Some v' else row_get r' k
  end.

(** [result_row.update(percentages)] *)
Fixpoint row_update (r : row) (percentages : dict) : row :=
  match percentages with
  | [] => r
  | (k, v) :: percentages' => row_update (row_set r k (Num v)) percentages'
  end.

Inductive analyzer_error :=
| KeyError
| CannotOpen (filename : string).

(** The mask directory: the names that [os.listdir] returns, each with the
    pixel array that [Image.open] reads from it, or [None] when the entry
    cannot be opened as an image. *)
Definition listing := list (string * option mask).

(** The [for filename in os.listdir(mask_dir)] loop of [analyze_directory];
    [results] is the list of rows collected so far. *)
Fixpoint analyze_directory_loop (py_round : float -> Z -> float)
    (entries : listing) (results : list row) : analyzer_error + list row :=
  match entries with
  | [] => inr results
  | (filename, content) :: entries' =>
      if PyStr.endswith filename "_mask.png" then
        match content with
        | None => inl (CannotOpen filename)
        | Some m =>
            match analyze_mask py_round m with
            | None => inl KeyError
            | Some percentages =>
                let result_row :=
                  row_update
                    [("Slide"%string,
                      Str (PyStr.replace filename "_mask.png" ""))]
                    percentages in
                analyze_directory_loop py_round entries'
                  (results ++ [result_row])
            end
        end
      else analyze_directory_loop py_round entries' results
  end.

(** [analyze_directory]: the rows handed to [pd.DataFrame], or the
    exception that ends the call. *)
Definition analyze_directory (py_round : float -> Z -> float)
    (mask_dir : listing) : analyzer_error + list row :=
  analyze_directory_loop py_round mask_dir [].

(** The file name passes the test of [analyze_directory]. *)
Definition is_mask_name (filename : string) : bool :=
  PyStr.endswith filename "_mask.png".

(** The pixels whose value is none of the classes 1 to 7. *)
Definition unclassified (m : mask) : Z :=
  np_count (fun v => (v <? 1) || (7 <? v)) m.

(** What a row has to do with the directory entry it comes from. *)
Definition row_of_entry (py_round : float -> Z -> float) (r : row)
    (e : string * option mask) : Prop :=
  exists m d,
    e.2 = Some m
    /\ analyze_mask py_round m = Some d
    /\ r = ("Slide"%string, Str (PyStr.replace e.1 "_mask.png" ""))
             :: (prod_map id Num <$> d).

End Analyzer.

(** * Properties of the watcher *)

(** ** The polling loop *)

Section PollingLoop.

Variable file_path : string.

(** The loop only polls: it neither logs nor runs anything. *)
Lemma wait_stable_polls file_size readings :
  Forall (fun e => is_poll e = true) (wait_stable file_path file_size readings).1.
Proof.
  revert file_size.
  induction readings as [|[n|] rest IH]; intros file_size; simpl.
  - constructor.
  - destruct (Z.of_N n =? file_size).
    + repeat constructor.
    + specialize (IH (Z.of_N n)).
      destruct (wait_stable file_path (Z.of_N n) rest) as [tr r].
      repeat constructor. exact IH.
  - repeat constructor.
Qed.

Lemma last_size_cons file_size a l :
  last_size file_size (a :: l) = last_size (Z.of_N a) l.
Proof.
  unfold last_size. rewrite last_cons. by destruct (last l).
Qed.

(** Leaving by [break]: the readings start with a run that keeps the
    loop going, followed by one equal to the loop variable. *)
Lemma wait_stable_break file_size readings tr :
  wait_stable file_path file_size readings = (tr, Stable) ->
  exists pre s post,
    readings = (Returns <$> pre) ++ Returns s :: post
    /\ keeps_polling file_size pre
    /\ Z.of_N s = last_size file_size pre
    /\ sizes_read tr = pre ++ [s].
Proof.
  revert file_size tr.
  induction readings as [|[n|] rest IH]; intros file_size tr; simpl.
  - discriminate.
  - destruct (Z.of_N n =? file_size) eqn:E.
    + intros [= <-]. apply Z.eqb_eq in E.
      exists [], n, rest. repeat split; assumption.
    + destruct (wait_stable file_path (Z.of_N n) rest) as [tr' r] eqn:W.
      intros [= <- ->]. apply Z.eqb_neq in E.
      destruct (IH _ _ W) as (pre & s & post & -> & Hk & Hs & Hr).
      exists (n :: pre), s, post. rewrite last_size_cons.
      repeat split; try assumption. simpl. by rewrite Hr.
  - discriminate.
Qed.

(** Conversely such readings make the loop leave by [break]. *)
Lemma wait_stable_break_complete file_size pre s post :
  keeps_polling file_size pre ->
  Z.of_N s = last_size file_size pre ->
  exists tr,
    wait_stable file_path file_size ((Returns <$> pre) ++ Returns s :: post)
    = (tr, Stable).
Proof.
  revert file_size.
  induction pre as [|a pre IH]; intros file_size.
  - intros _ Hs. unfold last_size in Hs. simpl in Hs.
    apply Z.eqb_eq in Hs. simpl. rewrite Hs. eauto.
  - intros [Ha Hk] Hs. rewrite last_size_cons in Hs.
    apply Z.eqb_neq in Ha. rewrite fmap_cons. cbn [app wait_stable].
    rewrite Ha. destruct (IH _ Hk Hs) as [tr ->]. eauto.
Qed.

Lemma keeps_polling_distinct a l :
  keeps_polling (Z.of_N a) l <-> distinct_from a l.
Proof.
  revert a. induction l as [|b l IH]; intros a; simpl; [tauto|].
  rewrite IH. split; intros [H1 H2]; split; try assumption; lia.
Qed.

Lemma keeps_polling_initial l :
  keeps_polling (-1) l <-> adjacent_distinct l.
Proof.
  destruct l as [|a l]; simpl; [tauto|].
  rewrite keeps_polling_distinct. split; [tauto|]. intros H. split; [lia|exact H].
Qed.

End PollingLoop.

Lemma run_pipeline_piped self p w :
  piped self p w (run_pipeline self p (PyStr.basename p) w).
Proof.
  unfold run_pipeline, subprocess_run_check.
  destruct (stage1 w) as [rc1|what1] eqn:E1.
  - destruct (Z.eq_dec rc1 0) as [->|Hrc1].
    + destruct (stage2 w) as [rc2|what2] eqn:E2.
      * destruct (Z.eq_dec rc2 0) as [->|Hrc2].
        -- by apply piped_done.
        -- destruct rc2; try congruence; by apply piped_stage2_exit.
      * by apply piped_stage2_raise.
    + destruct rc1; try congruence; by apply piped_stage1_exit.
  - by apply piped_stage1_raise.
Qed.

Lemma on_created_handled self ev w : handled self ev w (on_created self ev w).
Proof.
  unfold on_created.
  destruct (is_directory ev) eqn:Hd.
  { apply handled_filtered. by left. }
  destruct (PyStr.endswith (PyStr.lower (src_path ev)) ".svs") eqn:Hs.
  2: { apply handled_filtered. by right. }
  assert (qualifies ev) as Hq by done.
  destruct (decide (src_path ev ∈ processed_files self)) as [Hin|Hin].
  { by apply handled_duplicate. }
  destruct (wait_stable (src_path ev) (-1) (sizes w)) as [polls r] eqn:Hw.
  destruct r.
  - pose proof (run_pipeline_piped self (src_path ev) w) as Hp.
    destruct (run_pipeline self (src_path ev) (PyStr.basename (src_path ev)) w)
      as [body [e|self']].
    + destruct e as [rc cmd|what].
      * by apply (handled_failed _ _ _ polls body (CalledProcessError rc cmd)).
      * by apply (handled_failed _ _ _ polls body (OtherException what)).
    + by apply handled_completed.
  - by apply handled_unavailable.
  - by apply handled_polling.
Qed.

(** ** Runs and polls inside a trace *)

Lemma runs_app tr1 tr2 : runs (tr1 ++ tr2) = runs tr1 ++ runs tr2.
Proof.
  induction tr1 as [|[] tr1 IH]; simpl; try assumption; [reflexivity|].
  by rewrite IH.
Qed.

Lemma runs_In cmd r tr : In (Run cmd r) tr <-> In (cmd, r) (runs tr).
Proof.
  induction tr as [|e tr IH]; simpl; [tauto|].
  destruct e; simpl; rewrite <- IH.
  1-3: split; [intros [H|H]; [discriminate|exact H] | by right].
  split; (intros [H|H]; [left; congruence | by right]).
Qed.

Lemma polls_runs tr : Forall (fun e => is_poll e = true) tr -> runs tr = [].
Proof.
  induction 1 as [|e tr He _ IH]; [reflexivity|].
  destruct e; try discriminate; exact IH.
Qed.

Lemma wait_stable_runs p file_size readings polls r :
  wait_stable p file_size readings = (polls, r) -> runs polls = [].
Proof.
  intros H. apply polls_runs.
  pose proof (wait_stable_polls p file_size readings) as HF.
  by rewrite H in HF.
Qed.

(** A failed size reading ends the loop, and ends it as [Unavailable]. *)
Lemma wait_stable_oserror p file_size readings polls r :
  wait_stable p file_size readings = (polls, r) ->
  In (GetSize p RaisesOSError) polls -> r = Unavailable.
Proof.
  revert file_size polls.
  induction readings as [|[n|] rest IH]; intros file_size polls; simpl.
  - intros [= <- <-] [].
  - destruct (Z.of_N n =? file_size).
    + intros [= <- <-] [H|[]]. discriminate.
    + destruct (wait_stable p (Z.of_N n) rest) as [tr r'] eqn:W.
      intros [= <- <-] [H|[H|H]]; try discriminate. by apply (IH _ _ W).
  - by intros [= <- <-] _.
Qed.

Lemma tissue_cmd_neq_artifact_cmd self : tissue_cmd self <> artifact_cmd self.
Proof. unfold tissue_cmd, artifact_cmd. intros [=]. Qed.

(** * The stability wait *)

(** C1, as amended.  The polling loop declares the file stable exactly
    when the injected readings contain two equal neighbours, and it does
    so at the first such pair: the sizes it has read by then are the
    readings up to and including that pair, and no earlier two neighbours
    were equal.  On the readings 10, 10, 20, 20, 20 it therefore leaves
    after the second reading, on the plateau at 10, before any 20 is read. *)
Theorem wait_stable_first_equal_pair (file_path : string)
    (readings : list getsize_result) :
  (forall tr,
      wait_stable file_path (-1) readings = (tr, Stable) ->
      exists pre s post,
        readings = (Returns <$> pre) ++ Returns s :: Returns s :: post
        /\ adjacent_distinct (pre ++ [s])
        /\ sizes_read tr = pre ++ [s; s])
  /\ (forall pre s post,
         readings = (Returns <$> pre) ++ Returns s :: Returns s :: post ->
         adjacent_distinct (pre ++ [s]) ->
         exists tr, wait_stable file_path (-1) readings = (tr, Stable))
  /\ wait_stable file_path (-1) (Returns <$> [10; 10; 20; 20; 20]%N)
     = ([GetSize file_path (Returns 10); Sleep 1;
         GetSize file_path (Returns 10)], Stable).
Proof.
  split; [|split; [|reflexivity]].
  - intros tr H.
    destruct (wait_stable_break _ _ _ _ H) as (pre' & s & post & -> & Hk & Hs & Hr).
    unfold last_size in Hs. destruct (last pre') as [a|] eqn:Hl; [|lia].
    apply N2Z.inj in Hs. subst a.
    apply last_Some in Hl as [pre ->].
    exists pre, s, post. split; [|split].
    + by rewrite fmap_app, <- app_assoc.
    + by apply keeps_polling_initial.
    + by rewrite Hr, <- app_assoc.
  - intros pre s post -> Hd.
    replace ((Returns <$> pre) ++ Returns s :: Returns s :: post)
      with ((Returns <$> (pre ++ [s])) ++ Returns s :: post)
      by (by rewrite fmap_app, <- app_assoc).
    apply wait_stable_break_complete.
    + by apply keeps_polling_initial.
    + unfold last_size. by rewrite last_snoc.
Qed.

Lemma wait_stable_first_equal_pair_witness :
  exists pre s post,
    Returns <$> [10; 10; 20; 20; 20]%N
    = (Returns <$> pre) ++ Returns s :: Returns s :: post
    /\ adjacent_distinct (pre ++ [s])
    /\ sizes_read [GetSize "slideA.svs" (Returns 10); Sleep 1;
                   GetSize "slideA.svs" (Returns 10)] = pre ++ [s; s].
Proof.
  apply (proj1 (wait_stable_first_equal_pair "slideA.svs"
                  (Returns <$> [10; 10; 20; 20; 20]%N))).
  reflexivity.
Defined.

(** C1 as stated fails: on 10, 10, 20, 20, 20 the sizes read when the
    file is declared stable do not end in the pair 20, 20. *)
Lemma wait_stable_plateau_counterexample :
  ~ (forall tr,
        wait_stable "slideA.svs" (-1) (Returns <$> [10; 10; 20; 20; 20]%N)
        = (tr, Stable) ->
        exists pre, sizes_read tr = pre ++ [20; 20]%N).
Proof.
  intros H. destruct (H _ eq_refl) as [pre Hpre]. simpl in Hpre.
  assert (last ([10; 10]%N) = last (pre ++ [20; 20]%N)) as Hl by (by rewrite Hpre).
  change (pre ++ [20; 20]%N) with (pre ++ [20%N] ++ [20%N]) in Hl.
  rewrite app_assoc, last_snoc in Hl. discriminate.
Qed.

(** * The processed set and the two stages *)

(** Case analysis on how [on_created self ev w] went, with the [try]
    block opened up as well. *)
Ltac on_created_cases self ev w :=
  generalize (on_created_handled self ev w);
  generalize (on_created self ev w);
  let o := fresh "o" in
  let Hh := fresh "Hh" in
  intros o Hh;
  destruct Hh as [Hf | Hq Hin | polls Hq Hin Hw | polls Hq Hin Hw
                 | polls body e Hq Hin Hw Hp | polls body self' Hq Hin Hw Hp];
  try (inversion Hp; subst; clear Hp);
  cbn [handler trace ended].

(** Bring the runs of a trace of [on_created] into an explicit list. *)
Ltac runs_simpl Hw :=
  rewrite ?runs_app, ?(wait_stable_runs _ _ _ _ _ Hw);
  cbn [runs app skip_line detected_line access_error_line tissue_line
       artifact_line success_line error_line];
  rewrite ?runs_app, ?(wait_stable_runs _ _ _ _ _ Hw); cbn [runs app].

Lemma on_created_processed_mono self ev w :
  processed_files self ⊆ processed_files (handler (on_created self ev w)).
Proof. on_created_cases self ev w; cbn; set_solver. Qed.

Lemma dispatch_processed_mono events : forall self,
  processed_files self ⊆ processed_files (dispatch self events).1.
Proof.
  induction events as [|[ev w] rest IH]; intros self; simpl; [done|].
  pose proof (on_created_processed_mono self ev w) as H1.
  destruct (ended (on_created self ev w)); [|exact H1].
  specialize (IH (handler (on_created self ev w))).
  destruct (dispatch (handler (on_created self ev w)) rest) as [self' os].
  simpl in *. set_solver.
Qed.

(** An event for a path that is already in the set changes nothing and
    runs nothing. *)
Lemma on_created_already_processed self ev w :
  src_path ev ∈ processed_files self ->
  handler (on_created self ev w) = self
  /\ ended (on_created self ev w) = Returned
  /\ (trace (on_created self ev w) = []
      \/ trace (on_created self ev w) = [skip_line (src_path ev)]).
Proof. intros Hmem. on_created_cases self ev w; try done; auto. Qed.

(** C2.  Once the handling of an event for a path has run both stages
    with exit status zero, the path is in [processed_files], and from then
    on (whatever other events are handled in between) every event for that
    path returns without running any subprocess and leaves the handler as
    it was. *)
Theorem completed_path_never_reprocessed self ev w :
  runs (trace (on_created self ev w))
  = [(tissue_cmd self, Exit 0); (artifact_cmd self, Exit 0)] ->
  src_path ev ∈ processed_files (handler (on_created self ev w))
  /\ forall later ev' w',
       src_path ev' = src_path ev ->
       let self' := (dispatch (handler (on_created self ev w)) later).1 in
       runs (trace (on_created self' ev' w')) = []
       /\ handler (on_created self' ev' w') = self'
       /\ ended (on_created self' ev' w') = Returned.
Proof.
  intros Hruns.
  assert (src_path ev ∈ processed_files (handler (on_created self ev w))) as Hin'.
  { revert Hruns. on_created_cases self ev w; try discriminate;
      try (runs_simpl Hw; intros [=]; done).
    intros _. cbn. set_solver. }
  split; [exact Hin'|].
  intros later ev' w' Hsame self'.
  assert (src_path ev' ∈ processed_files self') as Hp.
  { rewrite Hsame. by apply dispatch_processed_mono. }
  destruct (on_created_already_processed self' ev' w' Hp) as (-> & -> & [-> | ->]);
    done.
Qed.

Lemma completed_path_never_reprocessed_witness :
  let self := SVSHandler_init "in" "out" in
  let ev := {| is_directory := false; src_path := "in/slideA.svs" |} in
  let w := {| sizes := Returns <$> [1000; 1000]%N;
              stage1 := Exit 0; stage2 := Exit 0 |} in
  src_path ev ∈ processed_files (handler (on_created self ev w))
  /\ forall later ev' w',
       src_path ev' = src_path ev ->
       let self' := (dispatch (handler (on_created self ev w)) later).1 in
       runs (trace (on_created self' ev' w')) = []
       /\ handler (on_created self' ev' w') = self'
       /\ ended (on_created self' ev' w') = Returned.
Proof.
  intros self ev w.
  apply (completed_path_never_reprocessed self ev w).
  reflexivity.
Defined.

Lemma last_trace_snoc (a : effect) l1 l2 x : last (a :: l1 ++ l2 ++ [x]) = Some x.
Proof. by rewrite app_assoc, app_comm_cons, last_snoc. Qed.

(** An event that passes the filter for a path not yet in the set gets
    past the dedupe check, and reaches stage 1 once its size settles. *)
Lemma on_created_fresh self ev w :
  qualifies ev -> src_path ev ∉ processed_files self ->
  (exists rest, trace (on_created self ev w) = detected_line (src_path ev) :: rest)
  /\ ((wait_stable (src_path ev) (-1) (sizes w)).2 = Stable ->
      In (Run (tissue_cmd self) (stage1 w)) (trace (on_created self ev w))).
Proof.
  intros [Hd Hs] Hnot.
  on_created_cases self ev w; try done.
  1: destruct Hf; congruence.
  all: split; [eauto|]; rewrite Hw; cbn [snd]; try discriminate; intros _.
  all: rewrite runs_In; runs_simpl Hw.
  all: match goal with H : stage1 _ = _ |- _ => rewrite H end; by left.
Qed.

(** C3.  When the stage 1 subprocess exits with a non-zero status, stage 2
    is not run at all: the only subprocess of the event is that one
    stage 1 run, the handler ends by logging the [CalledProcessError] of the
    stage 1 command (which is not the stage 2 command), and returns with
    its state untouched. *)
Theorem stage1_failure_skips_stage2 self ev w rc :
  In (Run (tissue_cmd self) (Exit rc)) (trace (on_created self ev w)) ->
  rc <> 0 ->
  invocations (artifact_cmd self) (trace (on_created self ev w)) = 0%nat
  /\ runs (trace (on_created self ev w)) = [(tissue_cmd self, Exit rc)]
  /\ last (trace (on_created self ev w))
     = Some (error_line (src_path ev) (CalledProcessError rc (tissue_cmd self)))
  /\ tissue_cmd self <> artifact_cmd self
  /\ handler (on_created self ev w) = self
  /\ ended (on_created self ev w) = Returned.
Proof.
  intros Hrun Hrc. rewrite runs_In in Hrun. revert Hrun.
  pose proof (tissue_cmd_neq_artifact_cmd self) as Hne.
  unfold invocations.
  on_created_cases self ev w; runs_simpl Hw; simpl; try tauto.
  - intros [[= <-]|[]]. repeat split; try done.
    apply (last_trace_snoc _ polls [_; _]).
  - intros [[=]|[]].
  - intros [[= <-]|[[= H]|[]]]; done.
  - intros [[= <-]|[[= H]|[]]]; done.
  - intros [[= <-]|[[= H]|[]]]; done.
Qed.

Lemma stage1_failure_skips_stage2_witness :
  let self := SVSHandler_init "in" "out" in
  let ev := {| is_directory := false; src_path := "in/slideA.svs" |} in
  let w := {| sizes := Returns <$> [1000; 1000]%N;
              stage1 := Exit 1; stage2 := Exit 0 |} in
  invocations (artifact_cmd self) (trace (on_created self ev w)) = 0%nat
  /\ runs (trace (on_created self ev w)) = [(tissue_cmd self, Exit 1)]
  /\ last (trace (on_created self ev w))
     = Some (error_line (src_path ev) (CalledProcessError 1 (tissue_cmd self)))
  /\ tissue_cmd self <> artifact_cmd self
  /\ handler (on_created self ev w) = self
  /\ ended (on_created self ev w) = Returned.
Proof.
  intros self ev w.
  apply (stage1_failure_skips_stage2 self ev w 1); [|lia].
  vm_compute. tauto.
Defined.

(** C4.  When the handling of an event ends with a stage failure (a
    subprocess of it exits with a non-zero status), [processed_files] is
    what it was before and does not hold the path; a later creation event
    for the same file gets past the dedupe check, and runs stage 1 again
    as soon as its own size readings settle. *)
Theorem failed_path_may_retry self ev w cmd rc :
  In (Run cmd (Exit rc)) (trace (on_created self ev w)) ->
  rc <> 0 ->
  let self1 := handler (on_created self ev w) in
  processed_files self1 = processed_files self
  /\ (src_path ev ∉ processed_files self1)
  /\ forall ev' w',
       src_path ev' = src_path ev -> is_directory ev' = false ->
       (exists rest,
           trace (on_created self1 ev' w') = detected_line (src_path ev) :: rest)
       /\ ((wait_stable (src_path ev) (-1) (sizes w')).2 = Stable ->
           In (Run (tissue_cmd self1) (stage1 w')) (trace (on_created self1 ev' w'))).
Proof.
  intros Hrun Hrc. rewrite runs_In in Hrun. revert Hrun.
  on_created_cases self ev w; runs_simpl Hw; simpl; try tauto.
  2: intros [[=]|[]].
  3: intros [[= _ H]|[[=]|[]]]; congruence.
  3: intros [[= _ H]|[[= _ H]|[]]]; congruence.
  all: intros _; split; [reflexivity|]; split; [assumption|].
  all: intros ev' w' Hsame Hfile; rewrite <- Hsame in *.
  all: apply on_created_fresh; [|assumption].
  all: destruct Hq as [_ Hs]; split; [assumption|by rewrite Hsame].
Qed.

Lemma failed_path_may_retry_witness :
  let self := SVSHandler_init "in" "out" in
  let ev := {| is_directory := false; src_path := "in/slideA.svs" |} in
  let w := {| sizes := Returns <$> [1000; 1000]%N;
              stage1 := Exit 0; stage2 := Exit 2 |} in
  let self1 := handler (on_created self ev w) in
  processed_files self1 = processed_files self
  /\ (src_path ev ∉ processed_files self1)
  /\ forall ev' w',
       src_path ev' = src_path ev -> is_directory ev' = false ->
       (exists rest,
           trace (on_created self1 ev' w') = detected_line (src_path ev) :: rest)
       /\ ((wait_stable (src_path ev) (-1) (sizes w')).2 = Stable ->
           In (Run (tissue_cmd self1) (stage1 w')) (trace (on_created self1 ev' w'))).
Proof.
  intros self ev w.
  apply (failed_path_may_retry self ev w (artifact_cmd self) 2); [|lia].
  vm_compute. tauto.
Defined.

(** An event for a fresh path whose size settles and whose two stages
    exit with status zero is carried through to the end. *)
Lemma on_created_success self ev w :
  qualifies ev -> src_path ev ∉ processed_files self ->
  (wait_stable (src_path ev) (-1) (sizes w)).2 = Stable ->
  stage1 w = Exit 0 -> stage2 w = Exit 0 ->
  runs (trace (on_created self ev w))
  = [(tissue_cmd self, Exit 0); (artifact_cmd self, Exit 0)]
  /\ handler (on_created self ev w) = mark_processed self (src_path ev)
  /\ ended (on_created self ev w) = Returned.
Proof.
  intros [Hd Hs] Hnot Hst H1 H2. revert Hst.
  on_created_cases self ev w; try done.
  1: destruct Hf; congruence.
  all: rewrite Hw; cbn [snd]; try discriminate; intros _; try congruence.
  by runs_simpl Hw.
Qed.

Lemma on_created_cmds self ev w :
  tissue_cmd (handler (on_created self ev w)) = tissue_cmd self
  /\ artifact_cmd (handler (on_created self ev w)) = artifact_cmd self.
Proof. on_created_cases self ev w; done. Qed.

(** Every path that [dispatch] leaves in the set was there before, or an
    event for it was handled with both stages exiting zero. *)
Lemma dispatch_processed_origin events : forall self p,
  p ∈ processed_files (dispatch self events).1 ->
  p ∈ processed_files self
  \/ exists ev out,
       In (ev, out) (dispatch self events).2
       /\ src_path ev = p
       /\ runs (trace out) = [(tissue_cmd self, Exit 0); (artifact_cmd self, Exit 0)].
Proof.
  induction events as [|[ev w] rest IH]; intros self p; simpl; [by left|].
  destruct (on_created_cmds self ev w) as [Ht Ha].
  assert (p ∈ processed_files (handler (on_created self ev w)) ->
          p ∈ processed_files self
          \/ src_path ev = p
             /\ runs (trace (on_created self ev w))
                = [(tissue_cmd self, Exit 0); (artifact_cmd self, Exit 0)]) as Hstep.
  { clear. on_created_cases self ev w; try tauto.
    cbn. rewrite elem_of_union, elem_of_singleton. intros [H| ->]; [by left|].
    right. split; [reflexivity|]. by runs_simpl Hw. }
  destruct (ended (on_created self ev w)).
  - specialize (IH (handler (on_created self ev w)) p).
    destruct (dispatch (handler (on_created self ev w)) rest) as [self' os].
    cbn [fst snd] in *. intros Hp.
    destruct (IH Hp) as [H|(ev0 & out & Hin & Hsrc & Hr)].
    + destruct (Hstep H) as [H'|[Hsrc Hr]]; [by left|].
      right. exists ev, (on_created self ev w). split; [by left|done].
    + right. exists ev0, out. rewrite Ht, Ha in Hr. split; [by right|done].
  - cbn [fst snd]. intros Hp.
    destruct (Hstep Hp) as [H'|[Hsrc Hr]]; [by left|].
    right. exists ev, (on_created self ev w). split; [by left|done].
Qed.

(** * The order of the steps of [on_created] *)

(** C7 as stated fails: for a path that is already in the set the handler
    reports the duplicate at once, without having read the size of the file
    (here a file whose size cannot even be read). *)
Lemma dedupe_before_wait_counterexample :
  let self := mark_processed (SVSHandler_init "in" "out") "in/slideA.svs" in
  let ev := {| is_directory := false; src_path := "in/slideA.svs" |} in
  let w := {| sizes := [RaisesOSError]; stage1 := Exit 0; stage2 := Exit 0 |} in
  ~ wait_before_dedupe (src_path ev) (trace (on_created self ev w)).
Proof.
  intros self ev w H.
  destruct (H 0%nat eq_refl) as (j & r & Hj & _). lia.
Qed.

(** C7, as amended.  The steps of [on_created] come in the order: the
    directory and extension filter, then the dedupe check against
    [processed_files], then the stability wait, then the pipeline run.  An
    event that fails the filter leaves no trace; a duplicate is reported
    without any size reading; otherwise the trace is the detection line,
    then the polls of the stability wait, then a remainder that holds no
    poll, and that starts the pipeline exactly when the wait ended stable. *)
Theorem on_created_step_order self ev w :
  let p := src_path ev in
  let o := on_created self ev w in
  (~ qualifies ev -> trace o = [])
  /\ (qualifies ev -> p ∈ processed_files self -> trace o = [skip_line p])
  /\ (qualifies ev -> p ∉ processed_files self ->
      exists rest,
        trace o = detected_line p :: (wait_stable p (-1) (sizes w)).1 ++ rest
        /\ Forall (fun e => is_poll e = true) (wait_stable p (-1) (sizes w)).1
        /\ Forall (fun e => is_poll e = false) rest
        /\ (runs rest <> [] -> (wait_stable p (-1) (sizes w)).2 = Stable)
        /\ ((wait_stable p (-1) (sizes w)).2 = Stable ->
            exists rest',
              rest = tissue_line p :: Run (tissue_cmd self) (stage1 w) :: rest')).
Proof.
  intros p o. subst p o.
  pose proof (wait_stable_polls (src_path ev) (-1) (sizes w)) as Hpolls.
  revert Hpolls.
  on_created_cases self ev w; intros Hpolls.
  1: { repeat split; try done; intros [Hd Hs]; destruct Hf; congruence. }
  1: { repeat split; try done. }
  1: { split; [done|]. split; [done|]. intros _ _.
       exists []. rewrite Hw in *. cbn [fst snd]. rewrite app_nil_r.
       repeat split; try done. }
  1: { split; [done|]. split; [done|]. intros _ _.
       exists [access_error_line (src_path ev)]. rewrite Hw in *. cbn [fst snd].
       repeat split; try done. by repeat constructor. }
  all: split; [done|]; split; [done|]; intros _ _.
  all: eexists; rewrite Hw in *; cbn [fst snd].
  all: split; [reflexivity|].
  all: match goal with H : stage1 _ = _ |- _ => rewrite H end.
  all: repeat split; eauto; by repeat constructor.
Qed.

Lemma on_created_step_order_witness :
  let self := SVSHandler_init "in" "out" in
  let ev := {| is_directory := false; src_path := "in/slideA.svs" |} in
  let w := {| sizes := Returns <$> [1000; 1000]%N;
              stage1 := Exit 0; stage2 := Exit 0 |} in
  exists rest,
    trace (on_created self ev w)
    = detected_line "in/slideA.svs"
        :: (wait_stable "in/slideA.svs" (-1) (sizes w)).1 ++ rest
    /\ Forall (fun e => is_poll e = true)
         (wait_stable "in/slideA.svs" (-1) (sizes w)).1
    /\ Forall (fun e => is_poll e = false) rest
    /\ (runs rest <> [] -> (wait_stable "in/slideA.svs" (-1) (sizes w)).2 = Stable)
    /\ ((wait_stable "in/slideA.svs" (-1) (sizes w)).2 = Stable ->
        exists rest',
          rest = tissue_line "in/slideA.svs"
                   :: Run (tissue_cmd self) (stage1 w) :: rest').
Proof.
  intros self ev w.
  apply (proj2 (proj2 (on_created_step_order self ev w))).
  - split; reflexivity.
  - apply not_elem_of_empty.
Defined.

(** * Files that cannot be read *)

(** C8.  When a size reading fails during the stability wait, the handler
    logs the access error and returns; it runs no subprocess and leaves the
    handler, and with it [processed_files], as it was, the path not being
    in the set.  A later creation event for the same path is therefore
    handled as if the failed one had never come, and is carried through to
    the end when its size settles and both stages exit zero. *)
Theorem unreadable_file_aborts self ev w :
  In (GetSize (src_path ev) RaisesOSError) (trace (on_created self ev w)) ->
  let o := on_created self ev w in
  ended o = Returned
  /\ runs (trace o) = []
  /\ last (trace o) = Some (access_error_line (src_path ev))
  /\ handler o = self
  /\ (src_path ev ∉ processed_files (handler o))
  /\ (forall ev' w', on_created (handler o) ev' w' = on_created self ev' w')
  /\ (forall w',
        (wait_stable (src_path ev) (-1) (sizes w')).2 = Stable ->
        stage1 w' = Exit 0 -> stage2 w' = Exit 0 ->
        runs (trace (on_created (handler o) ev w'))
        = [(tissue_cmd self, Exit 0); (artifact_cmd self, Exit 0)]
        /\ src_path ev ∈ processed_files (handler (on_created (handler o) ev w'))).
Proof.
  intros Hfail o. subst o. revert Hfail.
  assert (forall polls r, wait_stable (src_path ev) (-1) (sizes w) = (polls, r) ->
                          r <> Unavailable ->
                          ~ In (GetSize (src_path ev) RaisesOSError) polls) as Hno.
  { intros polls r Hw Hr Hin. by apply Hr, (wait_stable_oserror _ _ _ _ _ Hw). }
  on_created_cases self ev w.
  - intros [].
  - intros [[=]|[]].
  - intros [[=]|H]. by destruct (Hno _ _ Hw).
  - intros _. split; [done|]. split; [by runs_simpl Hw|].
    split; [apply (last_trace_snoc _ polls [])|].
    split; [done|]. split; [done|]. split; [done|].
    intros w' Hst H1 H2.
    destruct (on_created_success self ev w' Hq Hin Hst H1 H2) as (-> & -> & _).
    split; [done|]. cbn. set_solver.
  - intros [[=]|H]. exfalso. apply in_app_or in H as [H|H].
    + by destruct (Hno _ _ Hw).
    + destruct H as [[=]|[[=]|[H|[]]]]. discriminate.
  - intros [[=]|H]. exfalso. apply in_app_or in H as [H|H].
    + by destruct (Hno _ _ Hw).
    + destruct H as [[=]|[[=]|[H|[]]]]. discriminate.
  - intros [[=]|H]. exfalso. apply in_app_or in H as [H|H].
    + by destruct (Hno _ _ Hw).
    + destruct H as [[=]|[[=]|[[=]|[[=]|[H|[]]]]]]. discriminate.
  - intros [[=]|H]. exfalso. apply in_app_or in H as [H|H].
    + by destruct (Hno _ _ Hw).
    + destruct H as [[=]|[[=]|[[=]|[[=]|[H|[]]]]]]. discriminate.
  - intros [[=]|H]. exfalso. apply in_app_or in H as [H|H].
    + by destruct (Hno _ _ Hw).
    + destruct H as [[=]|[[=]|[[=]|[[=]|[[=]|[]]]]]].
Qed.

Lemma unreadable_file_aborts_witness :
  let self := SVSHandler_init "in" "out" in
  let ev := {| is_directory := false; src_path := "in/slideA.svs" |} in
  let w := {| sizes := [Returns 10; Returns 20; RaisesOSError];
              stage1 := Exit 0; stage2 := Exit 0 |} in
  let o := on_created self ev w in
  ended o = Returned
  /\ runs (trace o) = []
  /\ last (trace o) = Some (access_error_line (src_path ev))
  /\ handler o = self
  /\ (src_path ev ∉ processed_files (handler o))
  /\ (forall ev' w', on_created (handler o) ev' w' = on_created self ev' w')
  /\ (forall w',
        (wait_stable (src_path ev) (-1) (sizes w')).2 = Stable ->
        stage1 w' = Exit 0 -> stage2 w' = Exit 0 ->
        runs (trace (on_created (handler o) ev w'))
        = [(tissue_cmd self, Exit 0); (artifact_cmd self, Exit 0)]
        /\ src_path ev ∈ processed_files (handler (on_created (handler o) ev w'))).
Proof.
  intros self ev w.
  apply (unreadable_file_aborts self ev w).
  vm_compute. tauto.
Defined.

(** * The processed set only grows, and only on success *)

(** C9.  Handling an event never removes a path from [processed_files]:
    the set afterwards includes the set before, for one event and for any
    sequence of events.  The path of the event is added exactly when both
    stage runs of that event exited zero (it was not in the set before),
    and in every other case the set stays as it was.  Hence, starting from
    the empty set of a new handler, every member of the set is the path of
    an event that was handled with both stages exiting zero. *)
Theorem processed_files_only_grows :
  (forall self ev w,
      let o := on_created self ev w in
      let both_ok := [(tissue_cmd self, Exit 0); (artifact_cmd self, Exit 0)] in
      processed_files self ⊆ processed_files (handler o)
      /\ (runs (trace o) = both_ok ->
          (src_path ev ∉ processed_files self)
          /\ processed_files (handler o) = processed_files self ∪ {[src_path ev]})
      /\ (runs (trace o) <> both_ok ->
          processed_files (handler o) = processed_files self))
  /\ (forall self events,
         processed_files self ⊆ processed_files (dispatch self events).1)
  /\ (forall input_dir output_dir events p,
         let self := SVSHandler_init input_dir output_dir in
         p ∈ processed_files (dispatch self events).1 ->
         exists ev out,
           In (ev, out) (dispatch self events).2
           /\ src_path ev = p
           /\ runs (trace out)
              = [(tissue_cmd self, Exit 0); (artifact_cmd self, Exit 0)]).
Proof.
  split; [|split].
  - intros self ev w o both_ok. subst o both_ok.
    split; [apply on_created_processed_mono|].
    on_created_cases self ev w; runs_simpl Hw; split; try done.
    all: intros [=]; congruence.
  - intros self events. apply dispatch_processed_mono.
  - intros i o events p self Hp.
    destruct (dispatch_processed_origin events self p Hp) as [H|H]; [|exact H].
    cbn in H. set_solver.
Qed.

Lemma processed_files_only_grows_witness :
  let self := SVSHandler_init "in" "out" in
  let ev := {| is_directory := false; src_path := "in/slideA.svs" |} in
  let ok := {| sizes := Returns <$> [1000; 1000]%N;
               stage1 := Exit 0; stage2 := Exit 0 |} in
  let bad := {| sizes := Returns <$> [1000; 1000]%N;
                stage1 := Exit 1; stage2 := Exit 0 |} in
  ((src_path ev ∉ processed_files self)
   /\ processed_files (handler (on_created self ev ok))
      = processed_files self ∪ {[src_path ev]})
  /\ processed_files (handler (on_created self ev bad)) = processed_files self
  /\ exists ev' out,
       In (ev', out) (dispatch self [(ev, bad); (ev, ok)]).2
       /\ src_path ev' = "in/slideA.svs"
       /\ runs (trace out)
          = [(tissue_cmd self, Exit 0); (artifact_cmd self, Exit 0)].
Proof.
  intros self ev ok bad.
  split; [|split].
  - apply (proj1 (proj2 (proj1 processed_files_only_grows self ev ok))).
    reflexivity.
  - apply (proj2 (proj2 (proj1 processed_files_only_grows self ev bad))).
    vm_compute. discriminate.
  - apply (proj2 (proj2 processed_files_only_grows) "in" "out"
             [(ev, bad); (ev, ok)] "in/slideA.svs").
    vm_compute. reflexivity.
Defined.

(** * The event filter *)

Section Filter.

Import PyStr.

Lemma append_nil s : "" +:+ s = s.
Proof. reflexivity. Qed.

Lemma append_cons c s1 s2 : String c s1 +:+ s2 = String c (s1 +:+ s2).
Proof. reflexivity. Qed.

Lemma endswith_spec s suffix :
  endswith s suffix = true <-> exists pre, s = pre +:+ suffix.
Proof.
  induction s as [|c s IH]; cbn [endswith].
  - destruct (String.eqb_spec "" suffix) as [<-|Hne].
    + split; [by exists ""|done].
    + split; [done|].
      intros [[|c pre] H]; rewrite ?append_nil, ?append_cons in H; congruence.
  - destruct (String.eqb_spec (String c s) suffix) as [<-|Hne].
    + split; [by exists ""|done].
    + rewrite IH. split.
      * intros [pre ->]. by exists (String c pre).
      * intros [[|c' pre] H]; rewrite ?append_nil, ?append_cons in H;
          [congruence|].
        injection H as _ ->. by exists pre.
Qed.

Lemma lower_app s1 s2 : lower (s1 +:+ s2) = lower s1 +:+ lower s2.
Proof.
  induction s1 as [|c s1 IH]; [done|].
  rewrite append_cons. cbn [lower]. by rewrite IH.
Qed.

Lemma lower_split s a b :
  lower s = a +:+ b ->
  exists s1 s2, s = s1 +:+ s2 /\ lower s1 = a /\ lower s2 = b.
Proof.
  revert s. induction a as [|c a IH]; intros s H.
  - by exists "", s.
  - rewrite append_cons in H.
    destruct s as [|c' s]; cbn [lower] in H; [discriminate|].
    injection H as Hc H. destruct (IH _ H) as (s1 & s2 & -> & <- & <-).
    exists (String c' s1), s2. cbn [lower]. by rewrite Hc.
Qed.

Lemma lower_ascii_dot c : lower_ascii c = "."%char <-> c = "."%char.
Proof.
  destruct c as [[] [] [] [] [] [] [] []]; vm_compute; split; congruence.
Qed.

Lemma lower_ascii_s c :
  lower_ascii c = "s"%char <-> c = "s"%char \/ c = "S"%char.
Proof.
  destruct c as [[] [] [] [] [] [] [] []]; vm_compute;
    (split; [intros H; first [discriminate H | by left | by right]
            | intros [H|H]; first [discriminate H | reflexivity]]).
Qed.

Lemma lower_ascii_v c :
  lower_ascii c = "v"%char <-> c = "v"%char \/ c = "V"%char.
Proof.
  destruct c as [[] [] [] [] [] [] [] []]; vm_compute;
    (split; [intros H; first [discriminate H | by left | by right]
            | intros [H|H]; first [discriminate H | reflexivity]]).
Qed.

(** The extension test accepts exactly the paths that end in a dot
    followed by [s], [v], [s], each in either case. *)
Lemma svs_extension p :
  endswith (lower p) ".svs" = true
  <-> exists stem c1 c2 c3,
        p = stem +:+ String "." (String c1 (String c2 (String c3 "")))
        /\ (c1 = "s" \/ c1 = "S")%char
        /\ (c2 = "v" \/ c2 = "V")%char
        /\ (c3 = "s" \/ c3 = "S")%char.
Proof.
  rewrite endswith_spec. split.
  - intros [pre H].
    destruct (lower_split _ _ _ H) as (stem & ext & -> & _ & Hext).
    destruct ext as [|c0 [|c1 [|c2 [|c3 [|c4 ext]]]]]; try discriminate Hext.
    simpl in Hext. injection Hext as H0 H1 H2 H3.
    apply lower_ascii_dot in H0 as ->.
    exists stem, c1, c2, c3. split; [done|].
    by rewrite <- !lower_ascii_s, <- lower_ascii_v.
  - intros (stem & c1 & c2 & c3 & -> & H1 & H2 & H3).
    exists (lower stem). rewrite lower_app. f_equal. cbn [lower].
    apply lower_ascii_s in H1, H3. apply lower_ascii_v in H2.
    by rewrite H1, H2, H3.
Qed.

End Filter.

(** C10.  The handler does something for an event (its trace is not
    empty) if and only if the event is not a directory event and the
    lower-cased path ends in [.svs]; the case of the extension does not
    matter, so that [.SVS] and [.Svs] files qualify.  An event that fails
    the filter returns at once: no effect, not even a log line, and the
    handler unchanged. *)
Theorem filter_is_case_insensitive self ev w :
  (trace (on_created self ev w) <> []
   <-> is_directory ev = false
       /\ PyStr.endswith (PyStr.lower (src_path ev)) ".svs" = true)
  /\ (~ (is_directory ev = false
         /\ PyStr.endswith (PyStr.lower (src_path ev)) ".svs" = true) ->
      on_created self ev w
      = {| handler := self; trace := []; ended := Returned |})
  /\ (PyStr.endswith (PyStr.lower (src_path ev)) ".svs" = true
      <-> exists stem c1 c2 c3,
            src_path ev = stem +:+ String "." (String c1 (String c2 (String c3 "")))
            /\ (c1 = "s" \/ c1 = "S")%char
            /\ (c2 = "v" \/ c2 = "V")%char
            /\ (c3 = "s" \/ c3 = "S")%char)
  /\ PyStr.endswith (PyStr.lower "slideA.SVS") ".svs" = true
  /\ PyStr.endswith (PyStr.lower "slideA.Svs") ".svs" = true.
Proof.
  split; [|split; [|split; [apply svs_extension|split; reflexivity]]].
  - on_created_cases self ev w; try (split; [intros _; exact Hq | done]).
    split; [done|]. intros [Hd Hs]. destruct Hf; congruence.
  - on_created_cases self ev w; try done.
Qed.

Lemma filter_is_case_insensitive_witness :
  let self := SVSHandler_init "in" "out" in
  let w := {| sizes := Returns <$> [1000; 1000]%N;
              stage1 := Exit 0; stage2 := Exit 0 |} in
  trace (on_created self {| is_directory := false; src_path := "in/slideA.SVS" |} w)
    <> []
  /\ on_created self {| is_directory := true; src_path := "in/slideA.svs" |} w
     = {| handler := self; trace := []; ended := Returned |}
  /\ on_created self {| is_directory := false; src_path := "in/notes.txt" |} w
     = {| handler := self; trace := []; ended := Returned |}.
Proof.
  intros self w. split; [|split].
  - apply (proj1 (filter_is_case_insensitive self _ w)). split; reflexivity.
  - apply (proj1 (proj2 (filter_is_case_insensitive self _ w))).
    intros [H _]. discriminate H.
  - apply (proj1 (proj2 (filter_is_case_insensitive self _ w))).
    intros [_ H]. discriminate H.
Defined.

(** * The mask analyzer *)

Module AnalyzerFacts.

Import Analyzer.

Lemma percentages_loop_classes py_round m total :
  percentages_loop py_round artifact_classes m total [] []
  = ([("Normal Tissue", percentage_of py_round (pixels_of 1 m) total);
      ("Tissue Fold", percentage_of py_round (pixels_of 2 m) total);
      ("Dark Spot/Foreign", percentage_of py_round (pixels_of 3 m) total);
      ("Pen Marking", percentage_of py_round (pixels_of 4 m) total);
      ("Air Bubble/Edge", percentage_of py_round (pixels_of 5 m) total);
      ("Out of Focus", percentage_of py_round (pixels_of 6 m) total)]%string,
     [(pixels_of 1 m, total); (pixels_of 2 m, total); (pixels_of 3 m, total);
      (pixels_of 4 m, total); (pixels_of 5 m, total); (pixels_of 6 m, total)]).
Proof. reflexivity. Qed.

Lemma analyze_mask_run_tissue py_round m :
  total_tissue_pixels m <> 0 ->
  analyze_mask_run py_round m
  = (Some (percentages_loop py_round artifact_classes m
             (total_tissue_pixels m) [] []).1,
     (percentages_loop py_round artifact_classes m
        (total_tissue_pixels m) [] []).2).
Proof.
  intros H. unfold analyze_mask_run.
  apply Z.eqb_neq in H. rewrite H.
  by destruct (percentages_loop _ _ _ _ _ _).
Qed.

Lemma analyze_mask_run_background py_round m :
  total_tissue_pixels m = 0 ->
  analyze_mask_run py_round m
  = (Some [("Normal Tissue", 0%float); ("Tissue Fold", 0%float);
           ("Dark Spot/Foreign", 0%float); ("Pen Marking", 0%float);
           ("Air Bubble/Edge", 0%float); ("Out of Focus", 0%float)]%string,
     []).
Proof.
  intros H. unfold analyze_mask_run.
  apply Z.eqb_eq in H. by rewrite H.
Qed.

Lemma count_complement (l : list Z) :
  Z.of_nat (length (filter (fun v => negb (v =? 7) = true) l))
  = Z.of_nat (length l)
    - Z.of_nat (length (filter (fun v => (v =? 7) = true) l)).
Proof.
  induction l as [|v l IH]; [reflexivity|].
  rewrite !filter_cons.
  destruct (v =? 7) eqn:E; simpl negb;
    repeat case_decide; try done; cbn [length]; lia.
Qed.

(** The tissue total is the array size less the background count. *)
Lemma total_tissue_pixels_size m :
  total_tissue_pixels m
  = Z.of_nat (length (concat m)) - np_count (fun v => v =? 7) m.
Proof. apply count_complement. Qed.

Lemma all_background_total m : all_background m -> total_tissue_pixels m = 0.
Proof.
  intros H. unfold total_tissue_pixels, np_count.
  apply Forall_concat in H.
  induction H as [|v l -> _ IH]; [reflexivity|].
  by rewrite filter_cons_False.
Qed.

End AnalyzerFacts.

Import Analyzer AnalyzerFacts.

(** C5.  On a mask with at least one non-background pixel, [analyze_mask]
    returns a dictionary with the six non-background class names as keys,
    and under the name of each class [c] from 1 to 6 the value
    [round(count(pixels == c) / count(pixels != 7) * 100, 2)], computed in
    [float64].  In particular on a mask of 600 pixels, 500 of them
    background and 50 of them class 2, the tissue total is 100 and the
    percentage of class 2 is 50.0 (for any [round] that leaves 50.0 as it
    is). *)
Theorem analyze_mask_percentages (py_round : float -> Z -> float) (m : mask) :
  total_tissue_pixels m <> 0 ->
  (exists d,
      analyze_mask py_round m = Some d
      /\ d.*1 = ["Normal Tissue"; "Tissue Fold"; "Dark Spot/Foreign";
                 "Pen Marking"; "Air Bubble/Edge"; "Out of Focus"]%string
      /\ forall c, 1 <= c <= 6 ->
           exists name,
             class_name artifact_classes c = Some name
             /\ dict_get d name
                = Some (percentage_of py_round (pixels_of c m)
                          (total_tissue_pixels m)))
  /\ (length (concat m) = 600%nat ->
      np_count (fun v => v =? 7) m = 500 ->
      pixels_of 2 m = 50 ->
      py_round 50%float 2 = 50%float ->
      total_tissue_pixels m = 100
      /\ exists d,
           analyze_mask py_round m = Some d
           /\ dict_get d "Tissue Fold" = Some 50%float).
Proof.
  intros Htotal.
  assert (analyze_mask py_round m
          = Some (percentages_loop py_round artifact_classes m
                    (total_tissue_pixels m) [] []).1) as Hd.
  { unfold analyze_mask. by rewrite analyze_mask_run_tissue. }
  rewrite percentages_loop_classes in Hd. cbn [fst] in Hd.
  split.
  - eexists. split; [exact Hd|]. split; [reflexivity|].
    intros c Hc.
    assert (c = 1 \/ c = 2 \/ c = 3 \/ c = 4 \/ c = 5 \/ c = 6) as Hcases by lia.
    destruct Hcases as [->|[->|[->|[->|[->| ->]]]]]; eexists; split; reflexivity.
  - intros Hsize Hback Hfold Hround.
    assert (total_tissue_pixels m = 100) as H100.
    { rewrite total_tissue_pixels_size, Hsize, Hback. reflexivity. }
    split; [exact H100|].
    eexists. split; [exact Hd|].
    cbn [dict_get String.eqb Ascii.eqb Bool.eqb].
    unfold percentage_of. rewrite Hfold, H100.
    rewrite <- Hround. do 2 f_equal.
Qed.

Lemma analyze_mask_percentages_witness :
  let m := [repeat 7 500; repeat 2 50; repeat 1 30 ++ repeat 6 20] in
  total_tissue_pixels m = 100
  /\ exists d,
       analyze_mask np_round m = Some d
       /\ dict_get d "Tissue Fold" = Some 50%float.
Proof.
  intros m.
  apply (proj2 (analyze_mask_percentages np_round m ltac:(vm_compute; discriminate)));
    vm_compute; reflexivity.
Defined.

(** C6.  On a mask whose pixels are all class 7 the count of
    non-background pixels is zero, and then [analyze_mask] returns 0.0 for
    each of the six non-background classes without evaluating any division.
    On no mask at all does it evaluate a division whose denominator is
    zero. *)
Theorem analyze_mask_all_background (py_round : float -> Z -> float) (m : mask) :
  (all_background m -> total_tissue_pixels m = 0)
  /\ (total_tissue_pixels m = 0 ->
      analyze_mask py_round m
      = Some [("Normal Tissue", 0%float); ("Tissue Fold", 0%float);
              ("Dark Spot/Foreign", 0%float); ("Pen Marking", 0%float);
              ("Air Bubble/Edge", 0%float); ("Out of Focus", 0%float)]%string
      /\ divisions py_round m = [])
  /\ Forall (fun nd => nd.2 <> 0) (divisions py_round m).
Proof.
  split; [apply all_background_total|]. split.
  - intros H. unfold analyze_mask, divisions.
    by rewrite analyze_mask_run_background.
  - unfold divisions.
    destruct (Z.eq_dec (total_tissue_pixels m) 0) as [H|H].
    + rewrite analyze_mask_run_background by exact H. constructor.
    + rewrite analyze_mask_run_tissue by exact H.
      rewrite percentages_loop_classes. cbn [snd].
      repeat constructor; exact H.
Qed.

Lemma analyze_mask_all_background_witness :
  let m := [[7; 7; 7]; [7; 7; 7]] in
  total_tissue_pixels m = 0
  /\ analyze_mask np_round m
     = Some [("Normal Tissue", 0%float); ("Tissue Fold", 0%float);
             ("Dark Spot/Foreign", 0%float); ("Pen Marking", 0%float);
             ("Air Bubble/Edge", 0%float); ("Out of Focus", 0%float)]%string
  /\ divisions np_round m = [].
Proof.
  intros m.
  assert (total_tissue_pixels m = 0) as H.
  { apply (proj1 (analyze_mask_all_background np_round m)).
    repeat constructor. }
  split; [exact H|].
  apply (proj1 (proj2 (analyze_mask_all_background np_round m)) H).
Defined.


(** * Further properties of the polling loop *)

Section PollingOutcomes.

Variable file_path : string.

(** A run of readings that keeps the loop going is polled through, one
    second of sleep after each, and the loop goes on with what follows. *)
Lemma wait_stable_run file_size pre rest :
  keeps_polling file_size pre ->
  wait_stable file_path file_size ((Returns <$> pre) ++ rest)
  = (poll_effects file_path pre
       ++ (wait_stable file_path (last_size file_size pre) rest).1,
     (wait_stable file_path (last_size file_size pre) rest).2).
Proof.
  revert file_size.
  induction pre as [|a pre IH]; intros file_size.
  - intros _. unfold last_size. simpl. by destruct (wait_stable _ _ _).
  - intros [Ha Hk]. apply Z.eqb_neq in Ha.
    rewrite fmap_cons, last_size_cons. cbn [app wait_stable poll_effects].
    rewrite Ha, (IH _ Hk). reflexivity.
Qed.

(** Every list of readings is such a run, followed by nothing, by a
    failed reading, or by a size equal to the one before it. *)
Lemma wait_stable_inv file_size readings :
  exists pre rest,
    readings = (Returns <$> pre) ++ rest
    /\ keeps_polling file_size pre
    /\ match rest with
       | [] => True
       | RaisesOSError :: _ => True
       | Returns s :: _ => Z.of_N s = last_size file_size pre
       end.
Proof.
  revert file_size.
  induction readings as [|[n|] rest IH]; intros file_size.
  - exists [], []. by repeat split.
  - destruct (Z.eq_dec (Z.of_N n) file_size) as [E|E].
    + exists [], (Returns n :: rest). by repeat split.
    + destruct (IH (Z.of_N n)) as (pre & rest' & -> & Hk & Hrest).
      exists (n :: pre), rest'. rewrite last_size_cons. by repeat split.
  - exists [], (RaisesOSError :: rest). by repeat split.
Qed.

End PollingOutcomes.

Lemma slept_app tr1 tr2 : slept (tr1 ++ tr2) = (slept tr1 + slept tr2)%N.
Proof.
  induction tr1 as [|[] tr1 IH]; simpl; try assumption; [reflexivity|].
  rewrite IH. lia.
Qed.

Lemma size_calls_app tr1 tr2 :
  size_calls (tr1 ++ tr2) = (size_calls tr1 + size_calls tr2)%N.
Proof.
  induction tr1 as [|[] tr1 IH]; simpl; try assumption; [reflexivity|].
  rewrite IH. lia.
Qed.

Lemma poll_effects_count p l :
  slept (poll_effects p l) = N.of_nat (length l)
  /\ size_calls (poll_effects p l) = N.of_nat (length l)
  /\ sizes_read (poll_effects p l) = l.
Proof.
  induction l as [|a l (IH1 & IH2 & IH3)]; [done|].
  cbn [poll_effects slept size_calls sizes_read length].
  rewrite IH1, IH2, IH3. repeat split; lia.
Qed.

(** The three ways out of the polling loop, read off the readings: they
    start with sizes none of which equals the one before; what follows
    decides. *)
Lemma wait_stable_classify p readings :
  exists pre rest,
    readings = (Returns <$> pre) ++ rest
    /\ adjacent_distinct pre
    /\ match rest with
       | [] => wait_stable p (-1) readings = (poll_effects p pre, Polling)
       | RaisesOSError :: _ =>
           wait_stable p (-1) readings
           = (poll_effects p pre ++ [GetSize p RaisesOSError], Unavailable)
       | Returns s :: _ =>
           last pre = Some s
           /\ wait_stable p (-1) readings
              = (poll_effects p pre ++ [GetSize p (Returns s)], Stable)
       end.
Proof.
  destruct (wait_stable_inv (-1) readings) as (pre & rest & -> & Hk & Hrest).
  exists pre, rest. split; [done|]. split; [by apply keeps_polling_initial|].
  rewrite (wait_stable_run p _ _ _ Hk).
  destruct rest as [|[s|] rest]; cbn [wait_stable fst snd].
  - by rewrite app_nil_r.
  - unfold last_size in *. destruct (last pre) as [a|]; [|lia].
    apply N2Z.inj in Hrest as ->. by rewrite Z.eqb_refl.
  - done.
Qed.

(** X1.  The polling loop gives the file up as unavailable exactly when
    the readings are sizes, none equal to the one before it, followed by a
    failed reading; it has then read those sizes, slept one second after
    each, and made the failing call last. *)
Theorem wait_stable_unavailable_iff (p : string) (readings : list getsize_result) :
  ((wait_stable p (-1) readings).2 = Unavailable
   <-> exists pre post,
         readings = (Returns <$> pre) ++ RaisesOSError :: post
         /\ adjacent_distinct pre)
  /\ forall pre post,
       readings = (Returns <$> pre) ++ RaisesOSError :: post ->
       adjacent_distinct pre ->
       wait_stable p (-1) readings
       = (poll_effects p pre ++ [GetSize p RaisesOSError], Unavailable).
Proof.
  assert (forall pre post,
             readings = (Returns <$> pre) ++ RaisesOSError :: post ->
             adjacent_distinct pre ->
             wait_stable p (-1) readings
             = (poll_effects p pre ++ [GetSize p RaisesOSError], Unavailable)) as Hrun.
  { intros pre post -> Hd. apply keeps_polling_initial in Hd.
    by rewrite (wait_stable_run p _ _ _ Hd). }
  split; [|exact Hrun]. split.
  - destruct (wait_stable_classify p readings) as (pre & rest & Hr & Hd & Hw).
    destruct rest as [|[s|] rest].
    + rewrite Hw. discriminate.
    + destruct Hw as [_ ->]. discriminate.
    + intros _. by exists pre, rest.
  - intros (pre & post & Hr & Hd). by rewrite (Hrun _ _ Hr Hd).
Qed.

Lemma wait_stable_unavailable_iff_witness :
  wait_stable "slideA.svs" (-1) [Returns 10; Returns 20; RaisesOSError; Returns 30]
  = (poll_effects "slideA.svs" [10; 20]%N
       ++ [GetSize "slideA.svs" RaisesOSError], Unavailable).
Proof.
  apply (proj2 (wait_stable_unavailable_iff "slideA.svs" _) [10; 20]%N [Returns 30]).
  - reflexivity.
  - vm_compute. split; [discriminate|exact I].
Defined.

(** X2.  The polling loop is still going after the readings given exactly
    when every one of them returned a size and no size equals the one
    before it: a file that keeps changing is never declared stable, however
    many readings there are. *)
Theorem wait_stable_polling_iff (p : string) (readings : list getsize_result) :
  (wait_stable p (-1) readings).2 = Polling
  <-> exists l, readings = Returns <$> l /\ adjacent_distinct l.
Proof.
  split.
  - destruct (wait_stable_classify p readings) as (pre & rest & Hr & Hd & Hw).
    destruct rest as [|[s|] rest].
    + intros _. exists pre. by rewrite Hr, app_nil_r.
    + destruct Hw as [_ ->]. discriminate.
    + rewrite Hw. discriminate.
  - intros (l & -> & Hd). apply keeps_polling_initial in Hd.
    pose proof (wait_stable_run p _ _ [] Hd) as Hw.
    rewrite app_nil_r in Hw. by rewrite Hw.
Qed.

Lemma wait_stable_polling_iff_witness :
  (wait_stable "slideA.svs" (-1) (Returns <$> [10; 20; 10; 30]%N)).2 = Polling.
Proof.
  apply (proj2 (wait_stable_polling_iff "slideA.svs" _)).
  exists [10; 20; 10; 30]%N. split; [reflexivity|].
  vm_compute. repeat split; discriminate.
Defined.

(** X3.  The polling loop sleeps exactly one second after every size
    reading that does not end it: when it is left (stable or unavailable)
    the seconds slept are one less than the [getsize] calls made, and a
    stable verdict costs at least one second and two calls. *)
Theorem wait_stable_sleep_accounting (p : string) (readings : list getsize_result) :
  let tr := (wait_stable p (-1) readings).1 in
  let r := (wait_stable p (-1) readings).2 in
  (r = Polling -> slept tr = size_calls tr)
  /\ (r <> Polling -> (slept tr + 1)%N = size_calls tr)
  /\ (r = Stable -> (1 <= slept tr)%N /\ (2 <= size_calls tr)%N).
Proof.
  intros tr r. subst tr r.
  destruct (wait_stable_classify p readings) as (pre & rest & Hr & Hd & Hw).
  destruct (poll_effects_count p pre) as (Hs & Hc & _).
  destruct rest as [|[s|] rest]; [|destruct Hw as [Hl Hw]|]; rewrite Hw;
    cbn [fst snd]; rewrite ?slept_app, ?size_calls_app, Hs, Hc;
    cbn [slept size_calls]; repeat split; try done; try lia.
  all: apply last_Some in Hl as [pre' ->]; rewrite length_app; simpl; lia.
Qed.

Lemma wait_stable_sleep_accounting_witness :
  let tr := (wait_stable "slideA.svs" (-1) (Returns <$> [5; 7; 9; 9]%N)).1 in
  (slept tr + 1)%N = size_calls tr /\ (1 <= slept tr)%N /\ (2 <= size_calls tr)%N.
Proof.
  intros tr.
  split.
  - apply (proj1 (proj2 (wait_stable_sleep_accounting "slideA.svs"
                           (Returns <$> [5; 7; 9; 9]%N)))).
    vm_compute. discriminate.
  - apply (proj2 (proj2 (wait_stable_sleep_accounting "slideA.svs"
                           (Returns <$> [5; 7; 9; 9]%N)))).
    reflexivity.
Defined.

(** * Further properties of [on_created] *)

(** As [runs_simpl], with the log lines opened up at the end. *)
Ltac runs_norm Hw :=
  runs_simpl Hw;
  cbn [runs app skip_line detected_line access_error_line tissue_line
       artifact_line success_line error_line].

(** X4.  When the stage 2 subprocess exits with a non-zero status, stage 1
    has run before it and exited zero, the handler ends by logging the
    [CalledProcessError] of the stage 2 command, and returns with its state
    untouched: the path is not marked as processed. *)
Theorem stage2_failure_is_contained self ev w rc :
  In (Run (artifact_cmd self) (Exit rc)) (trace (on_created self ev w)) ->
  rc <> 0 ->
  runs (trace (on_created self ev w))
  = [(tissue_cmd self, Exit 0); (artifact_cmd self, Exit rc)]
  /\ last (trace (on_created self ev w))
     = Some (error_line (src_path ev) (CalledProcessError rc (artifact_cmd self)))
  /\ handler (on_created self ev w) = self
  /\ ended (on_created self ev w) = Returned.
Proof.
  intros Hrun Hrc. rewrite runs_In in Hrun. revert Hrun.
  on_created_cases self ev w; runs_norm Hw; intros Hx; cbn [In] in Hx;
    unfold tissue_cmd, artifact_cmd in Hx; destruct_or?; simplify_eq; try done.
  repeat split. apply (last_trace_snoc _ polls [_; _; _; _]).
Qed.

Lemma stage2_failure_is_contained_witness :
  let self := SVSHandler_init "in" "out" in
  let ev := {| is_directory := false; src_path := "in/slideA.svs" |} in
  let w := {| sizes := Returns <$> [1000; 1000]%N;
              stage1 := Exit 0; stage2 := Exit 3 |} in
  runs (trace (on_created self ev w))
  = [(tissue_cmd self, Exit 0); (artifact_cmd self, Exit 3)]
  /\ last (trace (on_created self ev w))
     = Some (error_line (src_path ev) (CalledProcessError 3 (artifact_cmd self)))
  /\ handler (on_created self ev w) = self
  /\ ended (on_created self ev w) = Returned.
Proof.
  intros self ev w.
  apply (stage2_failure_is_contained self ev w 3); [|lia].
  vm_compute. tauto.
Defined.

(** X5.  When a [subprocess.run] call itself raises (something other than
    the [CalledProcessError] of a non-zero exit), the handler logs the
    exception as an unexpected error and returns with its state untouched;
    it is the last subprocess call of the event, so a raise in stage 1
    keeps stage 2 from running. *)
Theorem subprocess_exception_is_contained self ev w cmd what :
  In (Run cmd (RunRaises what)) (trace (on_created self ev w)) ->
  last (trace (on_created self ev w))
  = Some (error_line (src_path ev) (OtherException what))
  /\ last (runs (trace (on_created self ev w))) = Some (cmd, RunRaises what)
  /\ (cmd = tissue_cmd self ->
      runs (trace (on_created self ev w)) = [(tissue_cmd self, RunRaises what)])
  /\ handler (on_created self ev w) = self
  /\ ended (on_created self ev w) = Returned.
Proof.
  intros Hrun. rewrite runs_In in Hrun. revert Hrun.
  on_created_cases self ev w; runs_norm Hw; intros Hx; cbn [In] in Hx;
    destruct_or?; simplify_eq; try done.
  - repeat split. apply (last_trace_snoc _ polls [_; _]).
  - repeat split; [apply (last_trace_snoc _ polls [_; _; _; _])|].
    intros H. by destruct (tissue_cmd_neq_artifact_cmd self).
Qed.

Lemma subprocess_exception_is_contained_witness :
  let self := SVSHandler_init "in" "out" in
  let ev := {| is_directory := false; src_path := "in/slideA.svs" |} in
  let w := {| sizes := Returns <$> [1000; 1000]%N;
              stage1 := RunRaises "FileNotFoundError"; stage2 := Exit 0 |} in
  last (trace (on_created self ev w))
  = Some (error_line (src_path ev) (OtherException "FileNotFoundError"))
  /\ last (runs (trace (on_created self ev w)))
     = Some (tissue_cmd self, RunRaises "FileNotFoundError")
  /\ (tissue_cmd self = tissue_cmd self ->
      runs (trace (on_created self ev w))
      = [(tissue_cmd self, RunRaises "FileNotFoundError")])
  /\ handler (on_created self ev w) = self
  /\ ended (on_created self ev w) = Returned.
Proof.
  intros self ev w.
  apply (subprocess_exception_is_contained self ev w (tissue_cmd self)
           "FileNotFoundError").
  vm_compute. tauto.
Defined.



(** Two log lines with different fixed openings are different lines. *)
Ltac line_discriminate H :=
  unfold skip_line, detected_line, access_error_line, tissue_line,
    artifact_line, success_line, error_line in H;
  try discriminate H;
  injection H as H; cbv [String.append] in H; discriminate H.

(** X7.  The handling of an event runs both stages with exit status zero
    exactly when the event passes the filter, its path is not yet in
    [processed_files], its size readings settle, and both subprocesses exit
    zero.  That is also exactly when the line "Successfully processed" is
    logged, and then the handler is the old one with the path added. *)
Theorem on_created_succeeds_iff self ev w :
  (runs (trace (on_created self ev w)) = both_ok self
   <-> qualifies ev
       /\ (src_path ev ∉ processed_files self)
       /\ (wait_stable (src_path ev) (-1) (sizes w)).2 = Stable
       /\ stage1 w = Exit 0
       /\ stage2 w = Exit 0)
  /\ (runs (trace (on_created self ev w)) = both_ok self
      <-> In (success_line (src_path ev)) (trace (on_created self ev w)))
  /\ (runs (trace (on_created self ev w)) = both_ok self ->
      handler (on_created self ev w) = mark_processed self (src_path ev)).
Proof.
  assert (forall polls r,
             wait_stable (src_path ev) (-1) (sizes w) = (polls, r) ->
             ~ In (success_line (src_path ev)) polls) as Hpolls.
  { intros polls r Hw Hin.
    pose proof (wait_stable_polls (src_path ev) (-1) (sizes w)) as HF.
    rewrite Hw in HF. rewrite Forall_forall in HF.
    apply list_elem_of_In, HF in Hin. discriminate Hin. }
  unfold both_ok.
  on_created_cases self ev w; try rewrite Hw; cbn [snd]; runs_norm Hw.
  all: split; [split|split; [split|]].
  all: try (intros; simplify_eq; done).
  all: try (intros (? & ? & ? & ? & ?); simplify_eq; done).
  all: try (intros (? & ? & ? & ? & ?); congruence).
  all: try (intros [Hx|Hx]; [line_discriminate Hx|];
            try (apply in_app_or in Hx as [Hx|Hx];
                 [by destruct (Hpolls _ _ Hw)|]);
            cbn [In app] in Hx; destruct_or?; try done;
            line_discriminate Hx).
  - intros ([Hd Hs] & _). destruct Hf; congruence.
  - intros [Hx|Hx]; [line_discriminate Hx|]. by destruct (Hpolls _ _ Hw).
  - intros _. right. apply in_or_app. right. cbn. tauto.
Qed.

Lemma on_created_succeeds_iff_witness :
  let self := SVSHandler_init "in" "out" in
  let ev := {| is_directory := false; src_path := "in/slideA.svs" |} in
  let w := {| sizes := Returns <$> [1000; 1000]%N;
              stage1 := Exit 0; stage2 := Exit 0 |} in
  runs (trace (on_created self ev w)) = both_ok self
  /\ In (success_line (src_path ev)) (trace (on_created self ev w)).
Proof.
  intros self ev w.
  assert (runs (trace (on_created self ev w)) = both_ok self) as H.
  { apply (proj1 (on_created_succeeds_iff self ev w)).
    split; [split; reflexivity|]. split; [apply not_elem_of_empty|].
    repeat split. }
  split; [exact H|].
  by apply (proj1 (proj2 (on_created_succeeds_iff self ev w))).
Defined.

(** X8.  Whatever the event, the handler runs at most two subprocesses
    and only the two fixed command lines built from its own [input_dir] and
    [output_dir]: the path of the new file is no part of them (the stages
    are run on the whole directory).  Stage 2 is run only after a stage 1
    run that exited zero. *)
Theorem runs_are_the_two_stage_commands self ev w :
  (forall cmd r,
      In (Run cmd r) (trace (on_created self ev w)) ->
      cmd = tissue_cmd self \/ cmd = artifact_cmd self)
  /\ (length (runs (trace (on_created self ev w))) <= 2)%nat
  /\ (forall r,
         In (Run (artifact_cmd self) r) (trace (on_created self ev w)) ->
         exists rest,
           runs (trace (on_created self ev w))
           = (tissue_cmd self, Exit 0) :: (artifact_cmd self, r) :: rest).
Proof.
  pose proof (tissue_cmd_neq_artifact_cmd self) as Hne.
  split; [|split].
  - intros cmd r. rewrite runs_In.
    on_created_cases self ev w; runs_norm Hw; intros Hx; cbn [In] in Hx;
      destruct_or?; simplify_eq; auto.
  - on_created_cases self ev w; runs_norm Hw; cbn [length]; lia.
  - intros r. rewrite runs_In.
    on_created_cases self ev w; runs_norm Hw; intros Hx; cbn [In] in Hx;
      destruct_or?; simplify_eq; eauto.
Qed.

Lemma runs_are_the_two_stage_commands_witness :
  let self := SVSHandler_init "in" "out" in
  let ev := {| is_directory := false; src_path := "in/slideA.svs" |} in
  let w := {| sizes := Returns <$> [1000; 1000]%N;
              stage1 := Exit 0; stage2 := Exit 4 |} in
  exists rest,
    runs (trace (on_created self ev w))
    = (tissue_cmd self, Exit 0) :: (artifact_cmd self, Exit 4) :: rest.
Proof.
  intros self ev w.
  apply (proj2 (proj2 (runs_are_the_two_stage_commands self ev w))).
  vm_compute. tauto.
Defined.

(** * Sequences of events *)

Lemma succeeded_fresh self ev w :
  succeeded (on_created self ev w) ->
  (src_path ev ∉ processed_files self)
  /\ src_path ev ∈ processed_files (handler (on_created self ev w)).
Proof.
  unfold succeeded.
  on_created_cases self ev w; runs_norm Hw; cbn [fmap list_fmap snd];
    intros Hx; simplify_eq.
  split; [done|]. cbn. set_solver.
Qed.

Lemma dispatch_succeeded_fresh events : forall self ev o,
  In (ev, o) (dispatch self events).2 ->
  succeeded o ->
  src_path ev ∉ processed_files self.
Proof.
  induction events as [|[ev0 w0] rest IH]; intros self ev o; simpl; [done|].
  pose proof (on_created_processed_mono self ev0 w0) as Hmono.
  destruct (ended (on_created self ev0 w0)).
  - specialize (IH (handler (on_created self ev0 w0)) ev o).
    destruct (dispatch (handler (on_created self ev0 w0)) rest) as [self' os].
    cbn [snd] in *. intros [[= <- <-]|Hin] Hs.
    + by apply succeeded_fresh in Hs as [? _].
    + specialize (IH Hin Hs). set_solver.
  - cbn [snd]. intros [[= <- <-]|[]] Hs. by apply succeeded_fresh in Hs as [? _].
Qed.

(** X9.  In any sequence of events handled one after the other, each path
    goes through the whole pipeline at most once: two handlings that both
    ran the two stages with exit status zero are for different paths, and
    none of them is for a path that was in [processed_files] at the start. *)
Theorem dispatch_succeeds_once_per_path events : forall self i j ev_i o_i ev_j o_j,
  (dispatch self events).2 !! i = Some (ev_i, o_i) ->
  (dispatch self events).2 !! j = Some (ev_j, o_j) ->
  succeeded o_i -> succeeded o_j ->
  src_path ev_i = src_path ev_j ->
  i = j /\ (src_path ev_i ∉ processed_files self).
Proof.
  induction events as [|[ev0 w0] rest IH]; intros self i j ev_i o_i ev_j o_j;
    [done|].
  intros Hi Hj Hsi Hsj Hsame.
  split.
  2: { eapply dispatch_succeeded_fresh; [|exact Hsi].
       apply list_elem_of_In. eapply list_elem_of_lookup_2. exact Hi. }
  revert Hi Hj. cbn [dispatch].
  pose proof (succeeded_fresh self ev0 w0) as Hfresh.
  pose proof (dispatch_succeeded_fresh rest (handler (on_created self ev0 w0)))
    as Hlater.
  specialize (IH (handler (on_created self ev0 w0))).
  destruct (ended (on_created self ev0 w0)).
  - destruct (dispatch (handler (on_created self ev0 w0)) rest) as [self' os].
    cbn [snd] in *.
    destruct i as [|i], j as [|j]; cbn; intros Hi Hj; simplify_eq.
    + done.
    + destruct (Hfresh Hsi) as [_ Hin]. rewrite Hsame in Hin.
      exfalso. eapply Hlater; [|exact Hsj|exact Hin].
      apply list_elem_of_In. eapply list_elem_of_lookup_2. exact Hj.
    + destruct (Hfresh Hsj) as [_ Hin]. rewrite <- Hsame in Hin.
      exfalso. eapply Hlater; [|exact Hsi|exact Hin].
      apply list_elem_of_In. eapply list_elem_of_lookup_2. exact Hi.
    + f_equal. by destruct (IH i j ev_i o_i ev_j o_j).
  - cbn [snd]. destruct i as [|[|i]], j as [|[|j]]; cbn; intros Hi Hj;
      simplify_eq. done.
Qed.

Lemma dispatch_succeeds_once_per_path_witness :
  let self := SVSHandler_init "in" "out" in
  let ev := {| is_directory := false; src_path := "in/slideA.svs" |} in
  let ok := {| sizes := Returns <$> [1000; 1000]%N;
               stage1 := Exit 0; stage2 := Exit 0 |} in
  (0 = 0)%nat /\ (src_path ev ∉ processed_files self).
Proof.
  intros self ev ok.
  apply (dispatch_succeeds_once_per_path [(ev, ok); (ev, ok)] self 0 0
           ev (on_created self ev ok) ev (on_created self ev ok));
    reflexivity.
Defined.

Lemma append_inv_head s a b : s +:+ a = s +:+ b -> a = b.
Proof.
  induction s as [|c s IH]; [done|].
  rewrite !append_cons. intros H. injection H as H. by apply IH.
Qed.

(** X10.  The dedupe check compares the path as it is, while the filter
    ignores the case of the extension.  So an event for another path is
    never held back by what happened to this one: if its path is not in
    the set, its size settles and both stages exit zero, it goes through
    the whole pipeline.  In particular [stem.svs] and [stem.SVS] both pass
    the filter and count as two files. *)
Theorem dedupe_is_by_exact_path self ev w ev' w' :
  qualifies ev' ->
  src_path ev' <> src_path ev ->
  src_path ev' ∉ processed_files self ->
  (wait_stable (src_path ev') (-1) (sizes w')).2 = Stable ->
  stage1 w' = Exit 0 -> stage2 w' = Exit 0 ->
  runs (trace (on_created (handler (on_created self ev w)) ev' w')) = both_ok self
  /\ forall stem,
       qualifies {| is_directory := false; src_path := stem +:+ ".svs" |}
       /\ qualifies {| is_directory := false; src_path := stem +:+ ".SVS" |}
       /\ stem +:+ ".svs" <> stem +:+ ".SVS".
Proof.
  intros Hq' Hne Hfresh Hst Hs1 Hs2. split.
  - assert (src_path ev' ∉ processed_files (handler (on_created self ev w))) as Hf'.
    { revert Hfresh. on_created_cases self ev w; try done.
      cbn. rewrite elem_of_union, elem_of_singleton. tauto. }
    destruct (on_created_success _ ev' w' Hq' Hf' Hst Hs1 Hs2) as (-> & _).
    unfold both_ok. by destruct (on_created_cmds self ev w) as [-> ->].
  - intros stem. split; [|split].
    + split; [done|]. cbn [src_path]. apply svs_extension.
      exists stem, "s"%char, "v"%char, "s"%char. tauto.
    + split; [done|]. cbn [src_path]. apply svs_extension.
      exists stem, "S"%char, "V"%char, "S"%char. tauto.
    + intros H. apply append_inv_head in H. discriminate H.
Qed.

Lemma dedupe_is_by_exact_path_witness :
  let self := SVSHandler_init "in" "out" in
  let ev := {| is_directory := false; src_path := "in/slideA.svs" |} in
  let ev' := {| is_directory := false; src_path := "in/slideA.SVS" |} in
  let w := {| sizes := Returns <$> [1000; 1000]%N;
              stage1 := Exit 0; stage2 := Exit 0 |} in
  runs (trace (on_created (handler (on_created self ev w)) ev' w)) = both_ok self.
Proof.
  intros self ev ev' w.
  apply (dedupe_is_by_exact_path self ev w ev' w).
  - split; reflexivity.
  - discriminate.
  - apply not_elem_of_empty.
  - reflexivity.
  - reflexivity.
  - reflexivity.
Defined.

(** * Further properties of [analyze_mask] *)

(** Both branches of [analyze_mask] return the six class names as keys. *)
Lemma analyze_mask_returns (py_round : float -> Z -> float) (m : mask) :
  exists d,
    analyze_mask py_round m = Some d
    /\ d.*1 = ["Normal Tissue"; "Tissue Fold"; "Dark Spot/Foreign";
               "Pen Marking"; "Air Bubble/Edge"; "Out of Focus"]%string.
Proof.
  unfold analyze_mask.
  destruct (Z.eq_dec (total_tissue_pixels m) 0) as [H|H].
  - rewrite analyze_mask_run_background by exact H. eauto.
  - rewrite analyze_mask_run_tissue by exact H.
    rewrite percentages_loop_classes. eauto.
Qed.

(** X11.  [analyze_mask] never fails with a [KeyError], and whatever the
    mask (empty, all background, or with tissue) the dictionary it returns
    has the same six keys in the same order: the six non-background class
    names. *)
Theorem analyze_mask_keys (py_round : float -> Z -> float) (m : mask) :
  exists d,
    analyze_mask py_round m = Some d
    /\ d.*1 = ["Normal Tissue"; "Tissue Fold"; "Dark Spot/Foreign";
               "Pen Marking"; "Air Bubble/Edge"; "Out of Focus"]%string.
Proof. apply analyze_mask_returns. Qed.





Lemma np_count_cons_row test (v : Z) (l : list Z) :
  Z.of_nat (length (filter (fun v => test v = true) (v :: l)))
  = (if test v then 1 else 0)
    + Z.of_nat (length (filter (fun v => test v = true) l)).
Proof.
  rewrite filter_cons. destruct (test v); case_decide; try done;
    cbn [length]; lia.
Qed.

(** X13.  The tissue total counts every pixel that is not 7, also one whose
    value is none of the classes: the six class counts and the count of
    such unclassified pixels add up to the total.  So the six numerators
    add up to the denominator exactly when every pixel value is a class
    index from 1 to 7. *)
Theorem tissue_total_splits (m : mask) :
  pixels_of 1 m + pixels_of 2 m + pixels_of 3 m + pixels_of 4 m
    + pixels_of 5 m + pixels_of 6 m + unclassified m
  = total_tissue_pixels m
  /\ (pixels_of 1 m + pixels_of 2 m + pixels_of 3 m + pixels_of 4 m
        + pixels_of 5 m + pixels_of 6 m = total_tissue_pixels m
      <-> Forall (Forall (fun v => 1 <= v <= 7)) m).
Proof.
  assert (pixels_of 1 m + pixels_of 2 m + pixels_of 3 m + pixels_of 4 m
            + pixels_of 5 m + pixels_of 6 m + unclassified m
          = total_tissue_pixels m) as Hsum.
  { unfold pixels_of, unclassified, total_tissue_pixels, np_count.
    induction (concat m) as [|v l IH]; [done|].
    rewrite !np_count_cons_row, <- IH.
    destruct (Z.eqb_spec v 1), (Z.eqb_spec v 2), (Z.eqb_spec v 3),
      (Z.eqb_spec v 4), (Z.eqb_spec v 5), (Z.eqb_spec v 6),
      (Z.eqb_spec v 7), (Z.ltb_spec v 1), (Z.ltb_spec 7 v);
      cbn [negb orb]; lia. }
  split; [exact Hsum|].
  assert (unclassified m = 0 <-> Forall (Forall (fun v => 1 <= v <= 7)) m) as Hun.
  { unfold unclassified, np_count. rewrite <- Forall_concat.
    induction (concat m) as [|v l IH]; [by split|].
    rewrite np_count_cons_row, Forall_cons, <- IH.
    destruct (Z.ltb_spec v 1), (Z.ltb_spec 7 v); cbn [orb]; lia. }
  rewrite <- Hun. lia.
Qed.

Lemma tissue_total_splits_witness :
  Forall (Forall (fun v => 1 <= v <= 7)) [[7; 1; 2]; [2; 6; 7]].
Proof.
  apply (proj1 (proj2 (tissue_total_splits [[7; 1; 2]; [2; 6; 7]]))).
  reflexivity.
Defined.

Lemma np_count_Permutation test (m m' : mask) :
  Permutation (concat m) (concat m') -> np_count test m = np_count test m'.
Proof.
  intros H. unfold np_count. f_equal. apply Permutation_length.
  by apply filter_Permutation.
Qed.

Lemma percentages_loop_ext py_round (m m' : mask) total items : forall d divs,
  (forall c, pixels_of c m = pixels_of c m') ->
  percentages_loop py_round items m total d divs
  = percentages_loop py_round items m' total d divs.
Proof.
  intros d divs H. revert d divs.
  induction items as [|[c name] items IH]; intros d divs; [done|].
  cbn [percentages_loop]. rewrite (H c). destruct (negb (c =? 7)); apply IH.
Qed.

(** X14.  The result of [analyze_mask] depends only on how often each
    pixel value occurs: two masks whose pixels are the same up to order
    (in particular the same pixels arranged in rows of another width) get
    the same dictionary and cause the same divisions. *)
Theorem analyze_mask_ignores_arrangement (py_round : float -> Z -> float)
    (m m' : mask) :
  Permutation (concat m) (concat m') ->
  analyze_mask_run py_round m = analyze_mask_run py_round m'.
Proof.
  intros H. unfold analyze_mask_run, total_tissue_pixels.
  rewrite (np_count_Permutation _ m m' H).
  destruct (_ =? 0); [done|].
  rewrite (percentages_loop_ext py_round m m'); [done|].
  intros c. by apply np_count_Permutation.
Qed.

Lemma analyze_mask_ignores_arrangement_witness :
  analyze_mask_run np_round [[7; 1; 2]; [2; 6; 7]]
  = analyze_mask_run np_round [[1; 7]; [2; 2]; [6; 7]].
Proof.
  apply (analyze_mask_ignores_arrangement np_round).
  cbn [concat app].
  apply perm_swap.
Defined.

(** * Properties of [analyze_directory] *)

(** The row that [analyze_directory] builds for a mask file: the slide
    name, then the six percentages of [analyze_mask] in its order. *)
Lemma row_update_slide py_round (m : mask) (d : dict) (slide : string) :
  analyze_mask py_round m = Some d ->
  row_update [("Slide"%string, Str slide)] d
  = ("Slide"%string, Str slide) :: (prod_map id Num <$> d).
Proof.
  unfold analyze_mask.
  destruct (Z.eq_dec (total_tissue_pixels m) 0) as [H|H].
  - rewrite analyze_mask_run_background by exact H. by intros [= <-].
  - rewrite analyze_mask_run_tissue by exact H.
    rewrite percentages_loop_classes. by intros [= <-].
Qed.

Lemma analyze_directory_loop_app py_round (pre : list (string * option mask)) :
  (forall f, In (f, None) pre -> is_mask_name f = false) ->
  exists rows,
    Forall2 (row_of_entry py_round) rows
      (filter (fun e => is_mask_name e.1 = true) pre)
    /\ forall rest acc,
         analyze_directory_loop py_round (pre ++ rest) acc
         = analyze_directory_loop py_round rest (acc ++ rows).
Proof.
  induction pre as [|[f c] pre IH]; intros Hread.
  - exists []. split; [constructor|]. intros rest acc. by rewrite app_nil_r.
  - destruct IH as (rows & HF & Hloop).
    { intros f' Hin. apply Hread. by right. }
    destruct (is_mask_name f) eqn:Hname.
    + destruct c as [m|]; [|by rewrite (Hread f (or_introl eq_refl)) in Hname].
      destruct (analyze_mask_returns py_round m) as (d & Hd & _).
      exists ((("Slide"%string, Str (PyStr.replace f "_mask.png" ""))
                 :: (prod_map id Num <$> d)) :: rows).
      split.
      * rewrite filter_cons. cbn [fst]. case_decide; [|congruence].
        constructor; [|exact HF]. by exists m, d.
      * intros rest acc. cbn [app analyze_directory_loop].
        unfold is_mask_name in Hname. rewrite Hname, Hd.
        rewrite (row_update_slide py_round m d _ Hd), Hloop.
        by rewrite <- app_assoc.
    + exists rows. split.
      * rewrite filter_cons. cbn [fst]. case_decide; [congruence|exact HF].
      * intros rest acc. cbn [app analyze_directory_loop].
        unfold is_mask_name in Hname. by rewrite Hname, Hloop.
Qed.

(** X15.  When every entry of the directory whose name ends in
    [_mask.png] can be opened, [analyze_directory] returns one row for each
    of them, in the order of the listing: the "Slide" column holds the
    file name with [_mask.png] taken out, and the six class columns hold
    what [analyze_mask] returns for that file.  Entries with other names
    are passed over without being opened, readable or not. *)
Theorem analyze_directory_rows (py_round : float -> Z -> float)
    (mask_dir : list (string * option mask)) :
  (forall f, In (f, None) mask_dir -> is_mask_name f = false) ->
  exists rows,
    analyze_directory py_round mask_dir = inr rows
    /\ Forall2 (row_of_entry py_round) rows
         (filter (fun e => is_mask_name e.1 = true) mask_dir)
    /\ Forall (fun r : row =>
                 r.*1 = ["Slide"; "Normal Tissue"; "Tissue Fold";
                         "Dark Spot/Foreign"; "Pen Marking";
                         "Air Bubble/Edge"; "Out of Focus"]%string) rows.
Proof.
  intros Hread.
  destruct (analyze_directory_loop_app py_round mask_dir Hread)
    as (rows & HF & Hloop).
  exists rows. split; [|split; [exact HF|]].
  - unfold analyze_directory. specialize (Hloop [] []).
    by rewrite app_nil_r in Hloop.
  - clear Hloop. induction HF as [|r e rows es (m & d & _ & Hd & ->) _ IH];
      constructor; [|exact IH].
    destruct (analyze_mask_returns py_round m) as (d' & Hd' & Hkeys).
    rewrite Hd in Hd'. injection Hd' as <-.
    cbn [fmap list_fmap fst]. f_equal.
    rewrite <- Hkeys. clear. induction d as [|[k v] d IH]; [done|].
    cbn. by rewrite IH.
Qed.

Lemma analyze_directory_rows_witness :
  exists rows,
    analyze_directory np_round
      [("a_mask.png"%string, Some [[7; 1]; [2; 7]]);
       ("notes.txt"%string, None);
       ("b_mask.png"%string, Some [[7; 7]])]
    = inr rows
    /\ Forall2 (row_of_entry np_round) rows
         (filter (fun e => is_mask_name e.1 = true)
            [("a_mask.png"%string, Some [[7; 1]; [2; 7]]);
             ("notes.txt"%string, None);
             ("b_mask.png"%string, Some [[7; 7]])])
    /\ Forall (fun r : row =>
                 r.*1 = ["Slide"; "Normal Tissue"; "Tissue Fold";
                         "Dark Spot/Foreign"; "Pen Marking";
                         "Air Bubble/Edge"; "Out of Focus"]%string) rows.
Proof.
  apply (analyze_directory_rows np_round).
  intros f [H|[H|[H|[]]]]; try discriminate H.
  injection H as <-. reflexivity.
Defined.

(** X16.  One entry named [..._mask.png] that cannot be opened as an image
    ends [analyze_directory] with that error: none of the rows already
    built for the entries before it is returned, and the entries after it
    are not looked at. *)
Theorem analyze_directory_unreadable_mask (py_round : float -> Z -> float)
    (pre post : list (string * option mask)) (f : string) :
  is_mask_name f = true ->
  (forall f', In (f', None) pre -> is_mask_name f' = false) ->
  analyze_directory py_round (pre ++ (f, None) :: post) = inl (CannotOpen f).
Proof.
  intros Hname Hread.
  destruct (analyze_directory_loop_app py_round pre Hread) as (rows & _ & Hloop).
  unfold analyze_directory. rewrite Hloop. cbn [analyze_directory_loop].
  unfold is_mask_name in Hname. by rewrite Hname.
Qed.

Lemma analyze_directory_unreadable_mask_witness :
  analyze_directory np_round
    ([("a_mask.png"%string, Some [[7; 1]; [2; 7]])]
       ++ ("broken_mask.png"%string, None)
       :: [("b_mask.png"%string, Some [[7; 7]])])
  = inl (CannotOpen "broken_mask.png").
Proof.
  apply (analyze_directory_unreadable_mask np_round).
  - reflexivity.
  - intros f' [H|[]]. discriminate H.
Defined.

(** * The slide name of a mask file *)

Section SlideName.

Import PyStr.

Lemma append_nil_r s : s +:+ "" = s.
Proof. induction s as [|c s IH]; [done|]. by rewrite append_cons, IH. Qed.

Lemma append_assoc s1 s2 s3 : (s1 +:+ s2) +:+ s3 = s1 +:+ (s2 +:+ s3).
Proof. induction s1 as [|c s1 IH]; [done|]. by rewrite !append_cons, IH. Qed.

Lemma startswith_app x s : startswith (x +:+ s) x = true.
Proof.
  induction x as [|c x IH]; [done|].
  rewrite append_cons. cbn [startswith]. by rewrite Ascii.eqb_refl, IH.
Qed.

Lemma replace_from_skip x s old new :
  replace_from (String.length x) (x +:+ s) old new = replace_from 0 s old new.
Proof.
  induction x as [|c x IH]; [done|].
  rewrite append_cons. exact IH.
Qed.

(** An occurrence at the front is replaced, and the scan goes on behind. *)
Lemma replace_occurrence c old' new s :
  replace (String c old' +:+ s) (String c old') new
  = new +:+ replace s (String c old') new.
Proof.
  unfold replace. rewrite append_cons. cbn [replace_from].
  rewrite <- append_cons, startswith_app.
  cbn [String.length Nat.sub]. rewrite ?Nat.sub_0_r. by rewrite replace_from_skip.
Qed.

(** A character that starts no occurrence is kept. *)
Lemma replace_other c s old new :
  startswith (String c s) old = false ->
  replace (String c s) old new = String c (replace s old new).
Proof. intros H. unfold replace. cbn [replace_from]. by rewrite H. Qed.

(** No occurrence of [_mask.png] starts inside [s] and ends inside an
    occurrence that follows [s]: the underscore comes first only. *)
Lemma mask_suffix_no_straddle c s b :
  startswith (String c s +:+ "_mask.png" +:+ b) "_mask.png"
  = startswith (String c s) "_mask.png".
Proof.
  destruct s as [|c2 [|c3 [|c4 [|c5 [|c6 [|c7 [|c8 [|c9 s]]]]]]]];
    rewrite ?append_cons, ?append_nil; cbn [startswith];
    repeat match goal with
           | |- context [Ascii.eqb ?x ?y] => is_var y; destruct (Ascii.eqb x y)
           end;
    reflexivity.
Qed.

Lemma replace_mask_suffix a b :
  contains a "_mask.png" = false ->
  replace (a +:+ "_mask.png" +:+ b) "_mask.png" ""
  = a +:+ replace b "_mask.png" "".
Proof.
  induction a as [|c a IH]; intros H.
  - rewrite !append_nil. by rewrite replace_occurrence.
  - cbn [contains] in H. apply orb_false_iff in H as [H1 H2].
    rewrite !(append_cons c a). rewrite replace_other.
    + by rewrite (IH H2).
    + rewrite <- (append_cons c a). by rewrite mask_suffix_no_straddle.
Qed.

End SlideName.

(** X17.  For a mask file named [stem_mask.png] whose stem does not itself
    contain [_mask.png], [analyze_directory] takes the file (the name
    passes its test) and the "Slide" column holds exactly the stem, also
    when the stem has underscores or dots of its own. *)
Theorem slide_name_of_mask_file (stem : string) :
  PyStr.contains stem "_mask.png" = false ->
  is_mask_name (stem +:+ "_mask.png") = true
  /\ PyStr.replace (stem +:+ "_mask.png") "_mask.png" "" = stem.
Proof.
  intros H. split.
  - apply endswith_spec. by exists stem.
  - pose proof (replace_mask_suffix stem "" H) as Hr.
    rewrite append_nil_r in Hr. rewrite Hr. apply append_nil_r.
Qed.

Lemma slide_name_of_mask_file_witness :
  is_mask_name ("case_12.v2" +:+ "_mask.png") = true
  /\ PyStr.replace ("case_12.v2" +:+ "_mask.png") "_mask.png" "" = "case_12.v2"%string.
Proof.
  apply (slide_name_of_mask_file "case_12.v2"). reflexivity.
Defined.

(** X18.  The slide name is made with [str.replace], which takes out every
    occurrence of [_mask.png], not only the one at the end.  So an
    occurrence in the middle of a file name is lost from the slide name
    too, and two different mask files, [stem_mask.png] and
    [stem_mask.png_mask.png], get the same "Slide" value. *)
Theorem slide_name_drops_every_occurrence (stem : string) :
  PyStr.contains stem "_mask.png" = false ->
  (forall rest,
      PyStr.replace (stem +:+ "_mask.png" +:+ rest) "_mask.png" ""
      = stem +:+ PyStr.replace rest "_mask.png" "")
  /\ is_mask_name (stem +:+ "_mask.png") = true
  /\ is_mask_name (stem +:+ "_mask.png" +:+ "_mask.png") = true
  /\ stem +:+ "_mask.png" <> stem +:+ "_mask.png" +:+ "_mask.png"
  /\ PyStr.replace (stem +:+ "_mask.png" +:+ "_mask.png") "_mask.png" ""
     = PyStr.replace (stem +:+ "_mask.png") "_mask.png" "".
Proof.
  intros H. split; [|split; [|split; [|split]]].
  - intros rest. by apply replace_mask_suffix.
  - apply endswith_spec. by exists stem.
  - apply endswith_spec. exists (stem +:+ "_mask.png"). by rewrite append_assoc.
  - intros Heq. apply append_inv_head in Heq. discriminate Heq.
  - rewrite (replace_mask_suffix stem "_mask.png" H).
    pose proof (replace_mask_suffix stem "" H) as Hr.
    rewrite append_nil_r in Hr. by rewrite Hr.
Qed.

Lemma slide_name_drops_every_occurrence_witness :
  PyStr.replace ("s1" +:+ "_mask.png" +:+ "_mask.png") "_mask.png" ""
  = PyStr.replace ("s1" +:+ "_mask.png") "_mask.png" "".
Proof.
  apply (slide_name_drops_every_occurrence "s1"). reflexivity.
Defined.
